(** * The SOP_PC_001 naming validator ([cloud-functions/quarantine/main.py])

    A shallow embedding of the cloud function [validate_naming_convention]
    and of the parts of its runtime it relies on: Python's [re.match] on
    the parsed form of [SOP_PATTERN], the [str] tests of the exclusion
    rule, and the two operations it calls on the storage client.

    A Python [str] is written as the Rocq [string] of its UTF-8 bytes;
    [codepoints] reads the characters back.  The substring and prefix tests
    and the concatenations of the function act on the bytes as they act on
    the characters.  The decimal digits beyond ASCII (category Nd of the
    Unicode database of the running interpreter) are a parameter, [Nd]. *)

From Stdlib Require Import Ascii String List Bool Arith NArith Lia.
From stdpp Require Import base option gmap strings.

Local Open Scope string_scope.
Local Open Scope list_scope.
#[local] Arguments String.append : simpl nomatch.

(** ** Python's [str]: bytes, characters and the tests of line 20 *)

(** [sub in s] *)
Fixpoint contains (sub s : string) : bool :=
  String.prefix sub s ||
  match s with
  | String _ s' => contains sub s'
  | EmptyString => false
  end.

(** [s.startswith(p)] *)
Definition startswith (s p : string) : bool := String.prefix p s.

Definition continuation (c : ascii) : option N :=
  let b := N_of_ascii c in
  if (128 <=? b)%N && (b <=? 191)%N then Some (b - 128)%N else None.

(** The characters (code points) of a string, [None] when the bytes are not
    the UTF-8 form of a [str]. *)
Fixpoint codepoints (s : string) : option (list N) :=
  match s with
  | EmptyString => Some []
  | String c0 s1 =>
      let b0 := N_of_ascii c0 in
      if (b0 <? 128)%N then
        match codepoints s1 with Some l => Some (b0 :: l) | None => None end
      else if (194 <=? b0)%N && (b0 <=? 223)%N then
        match s1 with
        | String c1 s2 =>
            match continuation c1, codepoints s2 with
            | Some x1, Some l => Some (((b0 - 192) * 64 + x1)%N :: l)
            | _, _ => None
            end
        | _ => None
        end
      else if (224 <=? b0)%N && (b0 <=? 239)%N then
        match s1 with
        | String c1 (String c2 s3) =>
            match continuation c1, continuation c2, codepoints s3 with
            | Some x1, Some x2, Some l =>
                let cp := (((b0 - 224) * 64 + x1) * 64 + x2)%N in
                if (2048 <=? cp)%N && negb ((55296 <=? cp)%N && (cp <=? 57343)%N)
                then Some (cp :: l) else None
            | _, _, _ => None
            end
        | _ => None
        end
      else if (240 <=? b0)%N && (b0 <=? 244)%N then
        match s1 with
        | String c1 (String c2 (String c3 s4)) =>
            match continuation c1, continuation c2, continuation c3, codepoints s4 with
            | Some x1, Some x2, Some x3, Some l =>
                let cp := ((((b0 - 240) * 64 + x1) * 64 + x2) * 64 + x3)%N in
                if (65536 <=? cp)%N && (cp <=? 1114111)%N
                then Some (cp :: l) else None
            | _, _, _, _ => None
            end
        | _ => None
        end
      else None
  end.

(** ** Python's [re]: parsed patterns *)

(** Members of a character set, as [sre_parse] produces them. *)
Inductive class_item : Type :=
  | Category_digit
  | Range (lo hi : ascii).

(** Pattern nodes.  A repeat carries its bounds ([None]: no upper bound)
    and the one-character set it repeats, which is the only form of
    repeat body that [SOP_PATTERN] contains. *)
Inductive node : Type :=
  | At_beginning
  | At_end
  | Literal (c : ascii)
  | In (items : list class_item)
  | Max_repeat (lo : nat) (hi : option nat) (items : list class_item).

Definition may_take (hi : option nat) : bool :=
  match hi with
  | Some O => false
  | _ => true
  end.

(** [$] without MULTILINE: at the end of the string, or just before a
    line feed that is the last character. *)
Definition at_end (rest : list N) : bool :=
  match rest with
  | [] => true
  | [c] => (c =? 10)%N
  | _ => false
  end.

(** ** The module's constant *)

Definition digit : list class_item := [Category_digit].
Definition upper_digit : list class_item := [Range "A" "Z"; Range "0" "9"].
Definition alnum : list class_item := [Range "A" "Z"; Range "a" "z"; Range "0" "9"].
Definition lower_digit : list class_item := [Range "a" "z"; Range "0" "9"].

(** [r'^\d{8}_[A-Z0-9]+_[A-Za-z0-9]+_LoD\d{3}\.[a-z0-9]+$'] *)
Definition SOP_PATTERN : list node :=
  [ At_beginning;
    Max_repeat 8 (Some 8) digit;
    Literal "_";
    Max_repeat 1 None upper_digit;
    Literal "_";
    Max_repeat 1 None alnum;
    Literal "_"; Literal "L"; Literal "o"; Literal "D";
    Max_repeat 3 (Some 3) digit;
    Literal ".";
    Max_repeat 1 None lower_digit;
    At_end ].

(** ** The object store and the function's effects *)

(** Errors with which a call on the storage client can end: the answers of
    the store, the client's own [ValueError] for a blob without a name, and
    the [RetryError] of its retry policy. *)
Inductive exception : Type :=
  | NotFound
  | Forbidden
  | ServiceUnavailable
  | ValueError
  | RetryError.

(** The two operations the function calls on the storage client:
    [bucket.copy_blob(blob, bucket, new_name)] and [blob.delete()]. *)
Inductive request : Type :=
  | CopyBlob (src_bucket src_name dst_bucket dst_name : string)
  | DeleteBlob (bucket_name blob_name : string).

(** What an invocation does that can be observed from outside, in order: the
    lines it prints and the operations it calls on the client.  [Issued r]
    records the call; what the client sends to the store for it (nothing
    when it rejects the call itself, the request once, or the request
    again under its retry policy) is not recorded. *)
Inductive event : Type :=
  | Printed (line : string)
  | Issued (r : request).

(** The world an invocation runs in: the objects of the store, keyed by
    (bucket, name); the calls that end in an error for a reason other than a
    missing object (permission denied, network failure, retries exhausted)
    and the error they end with; and what has been observed so far.  A call
    that ends in an error has no effect on the objects. *)
Record world : Type := World {
  objects : gmap (string * string) string;
  refuses : request -> option exception;
  trace : list event
}.

Definition observe (e : event) (w : world) : world :=
  World (objects w) (refuses w) (trace w ++ [e]).

Definition with_objects (o : gmap (string * string) string) (w : world) : world :=
  World o (refuses w) (trace w).

Inductive result (A : Type) : Type :=
  | Returned (a : A)
  | Raised (e : exception).
Arguments Returned {A} a.
Arguments Raised {A} e.

(** Computations that read and change the world and may raise: an
    exception skips the rest and leaves the world as it was when raised. *)
Definition M (A : Type) : Type := world -> result A * world.

#[global] Instance M_ret : MRet M := λ A a w, (Returned a, w).

#[global] Instance M_bind : MBind M := λ A B f m w,
  match m w with
  | (Returned a, w') => f a w'
  | (Raised e, w') => (Raised e, w')
  end.

(** [print(line)] *)
Definition print (line : string) : M unit :=
  λ w, (Returned tt, observe (Printed line) w).

(** Handles.  [storage.Client()], [client.bucket(..)] and [bucket.blob(..)]
    build local objects and send nothing to the store.  The [bucket] field
    of an event is the name of the bucket the object was created in, which
    [client.bucket] accepts (it refuses only strings that do not start and
    end with a letter or a digit, which no bucket is named). *)
Record Bucket : Type := { bucket_id : string }.
Record Blob : Type := { blob_bucket : Bucket; blob_name : string }.

Definition blob_key (b : Blob) : string * string :=
  (bucket_id (blob_bucket b), blob_name b).

(** [blob.path] is refused by the client for a blob without a name. *)
Definition nameless (n : string) : bool :=
  match n with
  | EmptyString => true
  | String _ _ => false
  end.

(** [self.copy_blob(blob, destination_bucket, new_name)]: the source of the
    copy is the blob itself, in its own bucket.  The client raises
    [ValueError] before sending anything when the source or the
    destination has no name.  Otherwise the call may end in an error of the
    backend; a missing source is [NotFound]; and else the content is written
    at the destination (an object already there is replaced) and the new
    blob is returned. *)
Definition copy_blob (self : Bucket) (blob : Blob) (destination_bucket : Bucket)
    (new_name : string) : M Blob :=
  λ w,
    let r := CopyBlob (bucket_id (blob_bucket blob)) (blob_name blob)
                      (bucket_id destination_bucket) new_name in
    let w1 := observe (Issued r) w in
    if nameless (blob_name blob) || nameless new_name then (Raised ValueError, w1)
    else
      match refuses w r with
      | Some e => (Raised e, w1)
      | None =>
          match objects w !! blob_key blob with
          | None => (Raised NotFound, w1)
          | Some v =>
              (Returned {| blob_bucket := destination_bucket; blob_name := new_name |},
               with_objects (<[(bucket_id destination_bucket, new_name) := v]> (objects w)) w1)
          end
      end.

(** [blob.delete()] *)
Definition delete (blob : Blob) : M unit :=
  λ w,
    let r := DeleteBlob (bucket_id (blob_bucket blob)) (blob_name blob) in
    let w1 := observe (Issued r) w in
    if nameless (blob_name blob) then (Raised ValueError, w1)
    else
      match refuses w r with
      | Some e => (Raised e, w1)
      | None =>
          match objects w !! blob_key blob with
          | None => (Raised NotFound, w1)
          | Some _ => (Returned tt, with_objects (base.delete (blob_key blob) (objects w)) w1)
          end
      end.

(** ** The event and the printed lines *)

Record event_data : Type := { bucket : string; name : string }.
Record CloudEvent : Type := { data : event_data }.

Definition violation_line (file_name : string) : string :=
  "⚠️ SOP Violation: " +:+ file_name +:+ ". Moving to quarantine.".

Definition compliant_line (file_name : string) : string :=
  "✅ SOP Compliant: " +:+ file_name +:+ ". Proceeding to Metadata Extraction.".

(** ** Notions used to state the properties *)

(** [file_name] is skipped by the test of line 20. *)
Definition excluded (file_name : string) : bool :=
  contains "quarantine/" file_name || startswith file_name ".".

Fixpoint every (f : ascii -> bool) (s : string) : bool :=
  match s with
  | EmptyString => true
  | String c s' => f c && every f s'
  end.

Definition within (hi : option nat) (n : nat) : Prop :=
  match hi with
  | None => True
  | Some h => n <= h
  end.

Definition code (c : ascii) : nat := nat_of_ascii c.

Definition between (lo hi c : ascii) : bool :=
  (code lo <=? code c)%nat && (code c <=? code hi)%nat.

(** The naming convention in the specification's words. *)
Module Words.

Definition is_digit (c : ascii) : bool := between "0" "9" c.
Definition is_upper (c : ascii) : bool := between "A" "Z" c.
Definition is_lower (c : ascii) : bool := between "a" "z" c.

(** [YYYYMMDD_PROJECTCODE_DELIVERABLE_LoDNNN.ext]: 8 digits, underscore,
    one or more uppercase letters or digits, underscore, one or more
    alphanumerics, underscore, [LoD], exactly 3 digits, a dot and a
    lowercase-alphanumeric extension, with nothing before or after. *)
Definition conforming (s : string) : Prop :=
  exists date project deliverable lod ext : string,
    s = date +:+ "_" +:+ project +:+ "_" +:+ deliverable +:+ "_LoD" +:+ lod
             +:+ "." +:+ ext /\
    (String.length date = 8 /\ every is_digit date = true) /\
    (1 <= String.length project /\
       every (fun c => is_upper c || is_digit c) project = true) /\
    (1 <= String.length deliverable /\
       every (fun c => is_upper c || is_lower c || is_digit c) deliverable = true) /\
    (String.length lod = 3 /\ every is_digit lod = true) /\
    (1 <= String.length ext /\
       every (fun c => is_lower c || is_digit c) ext = true).

(** The final path segment of a key: what follows its last [/]. *)
Fixpoint final_segment (s : string) : string :=
  match s with
  | EmptyString => EmptyString
  | String c s' =>
      if contains "/" s' then final_segment s'
      else if Ascii.eqb c "/" then s' else s
  end.

End Words.

Import Words.

(** The characters a conforming name is made of. *)
Definition in_alphabet (c : ascii) : bool :=
  is_upper c || is_lower c || is_digit c || Ascii.eqb c "_" || Ascii.eqb c ".".

(** The object a request reads. *)
Definition source (r : request) : string * string :=
  match r with
  | CopyBlob b n _ _ => (b, n)
  | DeleteBlob b n => (b, n)
  end.

(** A name of the request is empty. *)
Definition unnamed (r : request) : bool :=
  match r with
  | CopyBlob _ n _ q => nameless n || nameless q
  | DeleteBlob _ n => nameless n
  end.

(** The error, if any, with which the call [r] ends in world [w]. *)
Definition response (w : world) (r : request) : option exception :=
  if unnamed r then Some ValueError
  else
    match refuses w r with
    | Some e => Some e
    | None =>
        match objects w !! source r with
        | None => Some NotFound
        | Some _ => None
        end
    end.

Definition serves (w : world) (r : request) : bool :=
  match response w r with
  | None => true
  | Some _ => false
  end.

Definition issued (t : list event) : list request :=
  omap (fun e => match e with Issued r => Some r | Printed _ => None end) t.

Definition printed (t : list event) : list string :=
  omap (fun e => match e with Printed l => Some l | Issued _ => None end) t.

(** The three ways through the function: line 21, line 34, lines 25-30. *)
Inductive branch : Type :=
  | Skip
  | Compliant
  | Quarantine.

(** What the function does on each way, for bucket [b] and name [n]. *)
Definition takes (br : branch) (b n : string) : M unit :=
  match br with
  | Skip => mret tt
  | Compliant => print (compliant_line n)
  | Quarantine =>
      let blob := {| blob_bucket := {| bucket_id := b |}; blob_name := n |} in
      print (violation_line n);;
      _ ← copy_blob {| bucket_id := b |} blob {| bucket_id := b |} ("quarantine/" +:+ n);
      delete blob
  end.

Definition log_of (br : branch) (n : string) : list string :=
  match br with
  | Skip => []
  | Compliant => [compliant_line n]
  | Quarantine => [violation_line n]
  end.

(** Request [r] touches bucket [b] and no other. *)
Definition addresses (b : string) (r : request) : Prop :=
  match r with
  | CopyBlob sb _ db _ => sb = b /\ db = b
  | DeleteBlob b' _ => b' = b
  end.

(** Worlds and events for the examples. *)
Definition quiet : request -> option exception := fun _ => None.

Definition refusing_delete (e : exception) : request -> option exception :=
  fun r => match r with DeleteBlob _ _ => Some e | CopyBlob _ _ _ _ => None end.

Definition refusing_copy (e : exception) : request -> option exception :=
  fun r => match r with CopyBlob _ _ _ _ => Some e | DeleteBlob _ _ => None end.

Definition holding (b n v : string) (refusal : request -> option exception) : world :=
  World {[ (b, n) := v ]} refusal [].

Definition upload (b n : string) : CloudEvent :=
  {| data := {| bucket := b; name := n |} |}.

(** Some of the decimal digits beyond ASCII, for the examples: the
    Arabic-Indic, the Devanagari and the fullwidth digits. *)
Definition sample_digits (cp : N) : bool :=
  ((1632 <=? cp) && (cp <=? 1641) || (2406 <=? cp) && (cp <=? 2415)
   || (65296 <=? cp) && (cp <=? 65305))%N.

Definition point (c : ascii) : N := N_of_ascii c.

(** The bytes of a string as numbers: its characters, when all are ASCII. *)
Fixpoint points (s : string) : list N :=
  match s with
  | EmptyString => []
  | String c s' => point c :: points s'
  end.

Definition upper_point (cp : N) : bool := ((point "A" <=? cp) && (cp <=? point "Z"))%N.
Definition lower_point (cp : N) : bool := ((point "a" <=? cp) && (cp <=? point "z"))%N.
Definition digit_point (cp : N) : bool := ((point "0" <=? cp) && (cp <=? point "9"))%N.

(** The characters an accepted name can hold. *)
Definition allowed_point (cp : N) : bool :=
  (128 <=? cp)%N || upper_point cp || lower_point cp || digit_point cp
  || (cp =? point "_")%N || (cp =? point ".")%N || (cp =? 10)%N.

Ltac part := split; [first [reflexivity | assumption | lia | exact I | cbn [within]; lia] |].

Section Interpreter.

(** The decimal digits beyond ASCII of the interpreter's Unicode database. *)
Variable Nd : N -> bool.

(** ** The matcher *)

(** [\d] on a [str] pattern: a Unicode decimal digit. *)
Definition is_decimal (cp : N) : bool :=
  if (cp <? 128)%N then digit_point cp else Nd cp.

Definition item_matches (cp : N) (i : class_item) : bool :=
  match i with
  | Category_digit => is_decimal cp
  | Range lo hi => ((point lo <=? cp) && (cp <=? point hi))%N
  end.

Definition in_class (items : list class_item) (cp : N) : bool :=
  existsb (item_matches cp) items.

(** Greedy repeat of a one-character set: take one more character while
    the upper bound allows it, and fall back to the continuation [k] once
    the lower bound is reached. *)
Fixpoint match_repeat (items : list class_item) (lo : nat) (hi : option nat)
    (k : nat -> list N -> bool) (pos : nat) (s : list N) {struct s} : bool :=
  let stop := match lo with O => k pos s | S _ => false end in
  match s with
  | c :: s' =>
      if may_take hi && in_class items c
      then match_repeat items (Nat.pred lo) (Nat.pred <$> hi) k (S pos) s' || stop
      else stop
  | [] => stop
  end.

(** The backtracking matcher: [pos] is the index reached and [s] the
    characters still to read.  An exhausted pattern is a match, wherever it
    stops. *)
Fixpoint match_nodes (p : list node) (pos : nat) (s : list N) {struct p} : bool :=
  match p with
  | [] => true
  | At_beginning :: p' => (pos =? 0)%nat && match_nodes p' pos s
  | At_end :: p' => at_end s && match_nodes p' pos s
  | Literal c :: p' =>
      match s with
      | a :: s' => (a =? point c)%N && match_nodes p' (S pos) s'
      | [] => false
      end
  | In items :: p' =>
      match s with
      | a :: s' => in_class items a && match_nodes p' (S pos) s'
      | [] => false
      end
  | Max_repeat lo hi items :: p' => match_repeat items lo hi (match_nodes p') pos s
  end.

(** [re.match(pattern, s)]: a match object exists ([true]) or the result
    is [None] ([false]). *)
Definition re_match (pattern : list node) (s : string) : bool :=
  match codepoints s with
  | Some cps => match_nodes pattern 0 cps
  | None => false
  end.

(** ** The cloud function *)

Definition validate_naming_convention (cloud_event : CloudEvent) : M unit :=
  let data := data cloud_event in
  let bucket_name := bucket data in
  let file_name := name data in
  let bucket := {| bucket_id := bucket_name |} in
  let blob := {| blob_bucket := bucket; blob_name := file_name |} in
  (* Skip files already in quarantine or system files *)
  if contains "quarantine/" file_name || startswith file_name "." then
    mret tt
  else
    (* Validate against SOP_PC_001 *)
    if negb (re_match SOP_PATTERN file_name) then
      print (violation_line file_name);;
      (* Move to quarantine *)
      let new_name := "quarantine/" +:+ file_name in
      _ ← copy_blob bucket blob bucket new_name;
      delete blob
    else
      print (compliant_line file_name).

(** The way taken, read off the two tests of the function. *)
Definition branch_of (file_name : string) : branch :=
  if excluded file_name then Skip
  else if negb (re_match SOP_PATTERN file_name) then Quarantine
  else Compliant.

(** What a node list accepts, read off the pattern rather than computed. *)
Fixpoint accepts (p : list node) (pos : nat) (s : list N) : Prop :=
  match p with
  | [] => True
  | At_beginning :: p' => pos = 0 /\ accepts p' pos s
  | At_end :: p' => (s = [] \/ s = [10%N]) /\ accepts p' pos s
  | Literal c :: p' => exists v, s = point c :: v /\ accepts p' (S pos) v
  | In items :: p' =>
      exists a v, s = a :: v /\ in_class items a = true /\ accepts p' (S pos) v
  | Max_repeat lo hi items :: p' =>
      exists u v, s = u ++ v /\ forallb (in_class items) u = true /\
                  lo <= length u /\ within hi (length u) /\
                  accepts p' (pos + length u) v
  end.

(** The characters of an accepted name, in words: 8 decimal digits,
    underscore, one or more of A-Z 0-9, underscore, one or more of A-Z a-z
    0-9, underscore, [LoD], 3 decimal digits, a dot, one or more of a-z
    0-9.  A decimal digit is any character [\d] admits; the digits of the
    three sets are 0-9 only. *)
Definition accepted_points (cps : list N) : Prop :=
  exists date project deliverable lod ext : list N,
    cps = date ++ [point "_"] ++ project ++ [point "_"] ++ deliverable
            ++ [point "_"; point "L"; point "o"; point "D"] ++ lod
            ++ [point "."] ++ ext /\
    (length date = 8 /\ forallb is_decimal date = true) /\
    (1 <= length project /\
       forallb (fun c => upper_point c || digit_point c) project = true) /\
    (1 <= length deliverable /\
       forallb (fun c => upper_point c || lower_point c || digit_point c) deliverable = true) /\
    (length lod = 3 /\ forallb is_decimal lod = true) /\
    (1 <= length ext /\
       forallb (fun c => lower_point c || digit_point c) ext = true).

(** ** The matcher and the names it accepts *)

Lemma match_repeat_iff items lo hi k pos s :
  match_repeat items lo hi k pos s = true <->
  exists u v, s = u ++ v /\ forallb (in_class items) u = true /\
              lo <= length u /\ within hi (length u) /\
              k (pos + length u) v = true.
Proof.
  revert lo hi pos. induction s as [|c s IH]; intros lo hi pos.
  - simpl. split.
    + destruct lo; [|discriminate]. intros Hk.
      exists [], []. simpl. rewrite Nat.add_0_r.
      repeat split; auto. destruct hi; simpl; lia.
    + intros (u & v & Hs & _ & Hlo & _ & Hk).
      destruct u; [|discriminate]. simpl in *. subst v.
      rewrite Nat.add_0_r in Hk. destruct lo; [exact Hk | lia].
  - cbn [match_repeat]. split.
    + intros H.
      assert (Hcases :
        (may_take hi && in_class items c = true /\
         match_repeat items (Nat.pred lo) (Nat.pred <$> hi) k (S pos) s = true) \/
        (lo = 0 /\ k pos (c :: s) = true)).
      { destruct (may_take hi && in_class items c) eqn:E.
        - apply orb_true_iff in H as [H|H]; [left; auto|].
          right. destruct lo; [auto | discriminate].
        - right. destruct lo; [auto | discriminate]. }
      destruct Hcases as [[E H1] | [-> Hk]].
      * apply andb_true_iff in E as [Et Ec].
        apply IH in H1 as (u & v & -> & Hu & Hlo & Hhi & Hk).
        exists (c :: u), v. simpl. rewrite Ec, Hu.
        replace (pos + S (length u)) with (S pos + length u) by lia.
        repeat split; auto; [lia|].
        destruct hi as [[|h]|]; simpl in *; try discriminate; auto; lia.
      * exists [], (c :: s). simpl. rewrite Nat.add_0_r.
        repeat split; auto. destruct hi; simpl; lia.
    + intros (u & v & Hs & Hu & Hlo & Hhi & Hk).
      destruct u as [|a u].
      * simpl in *. subst v. rewrite Nat.add_0_r in Hk.
        assert (lo = 0) as -> by lia. rewrite Hk.
        destruct (may_take hi && in_class items c); [apply orb_true_r | reflexivity].
      * simpl in Hs. injection Hs as <- ->. simpl in Hu, Hlo, Hhi, Hk.
        apply andb_true_iff in Hu as [Hc Hu].
        assert (Ht : may_take hi = true).
        { destruct hi as [[|h]|]; simpl in *; auto; lia. }
        rewrite Ht, Hc. simpl. apply orb_true_iff. left.
        apply IH. exists u, v. repeat split; auto; [lia | |].
        -- destruct hi as [[|h]|]; simpl in *; auto; lia.
        -- replace (S pos + length u) with (pos + S (length u)) by lia.
           exact Hk.
Qed.

Lemma at_end_iff s : at_end s = true <-> s = [] \/ s = [10%N].
Proof.
  destruct s as [|c [|d s]]; simpl; split; auto; try discriminate.
  - intros H. apply N.eqb_eq in H. subst. auto.
  - intros [H|H]; [discriminate|]. injection H as ->. reflexivity.
  - intros [H|H]; discriminate.
Qed.

Lemma match_nodes_accepts p : forall pos s,
  match_nodes p pos s = true <-> accepts p pos s.
Proof.
  induction p as [|n p IH]; intros pos s; [simpl; tauto|].
  destruct n as [| |c|items|lo hi items]; cbn [match_nodes accepts].
  - rewrite andb_true_iff, Nat.eqb_eq, IH. tauto.
  - rewrite andb_true_iff, at_end_iff, IH. tauto.
  - destruct s as [|a v].
    + split; [discriminate|]. intros (v & H & _). discriminate.
    + rewrite andb_true_iff, N.eqb_eq, IH. split.
      * intros [-> H]. eauto.
      * intros (v' & H & Hv). injection H as -> ->. auto.
  - destruct s as [|a v].
    + split; [discriminate|]. intros (a & v & H & _). discriminate.
    + rewrite andb_true_iff, IH. split.
      * intros [Hc H]. eauto.
      * intros (a' & v' & H & Hc & Hv). injection H as -> ->. auto.
  - rewrite match_repeat_iff. split.
    + intros (u & v & Hs & Hu & Hlo & Hhi & Hk). apply IH in Hk. eauto 10.
    + intros (u & v & Hs & Hu & Hlo & Hhi & Hk). apply IH in Hk. eauto 10.
Qed.

Lemma forallb_eq {A} (f g : A -> bool) l :
  (forall c, f c = g c) -> forallb f l = forallb g l.
Proof. intros E. induction l as [|c l IH]; simpl; [reflexivity|]. rewrite E, IH. reflexivity. Qed.

Lemma forallb_weaken {A} (f g : A -> bool) l :
  (forall c, f c = true -> g c = true) -> forallb f l = true -> forallb g l = true.
Proof.
  intros Hfg. induction l as [|c l IH]; simpl; [auto|].
  rewrite !andb_true_iff. intros [Hc Hl]. auto.
Qed.

Lemma class_digit c : in_class digit c = is_decimal c.
Proof. unfold in_class, digit. simpl. apply orb_false_r. Qed.

Lemma class_upper_digit c : in_class upper_digit c = upper_point c || digit_point c.
Proof. unfold in_class, upper_digit. simpl. rewrite orb_false_r. reflexivity. Qed.

Lemma class_alnum c : in_class alnum c = upper_point c || lower_point c || digit_point c.
Proof. unfold in_class, alnum. simpl. rewrite orb_false_r, orb_assoc. reflexivity. Qed.

Lemma class_lower_digit c : in_class lower_digit c = lower_point c || digit_point c.
Proof. unfold in_class, lower_digit. simpl. rewrite orb_false_r. reflexivity. Qed.

(** The character sequences the pattern accepts: the sequences of the
    shape above, and those followed by one line feed. *)
Lemma match_SOP_iff cps :
  match_nodes SOP_PATTERN 0 cps = true <->
  exists t, accepted_points t /\ (cps = t \/ cps = t ++ [10%N]).
Proof.
  rewrite match_nodes_accepts. unfold SOP_PATTERN.
  cbn [accepts]. split.
  - intros (_ & d & r1 & -> & Hd & Hd8 & Hd8' & r2 & -> &
            pr & r3 & -> & Hpr & Hpr1 & _ & r4 & -> &
            dl & r5 & -> & Hdl & Hdl1 & _ & r6 & -> & r7 & -> & r8 & -> & r9 & -> &
            lod & r10 & -> & Hl & Hl3 & Hl3' & r11 & -> &
            ext & tl & -> & He & He1 & _ & Htl & _).
    simpl in Hd8', Hl3'.
    rewrite (forallb_eq _ _ d class_digit) in Hd.
    rewrite (forallb_eq _ _ lod class_digit) in Hl.
    rewrite (forallb_eq _ _ pr class_upper_digit) in Hpr.
    rewrite (forallb_eq _ _ dl class_alnum) in Hdl.
    rewrite (forallb_eq _ _ ext class_lower_digit) in He.
    exists (d ++ [point "_"] ++ pr ++ [point "_"] ++ dl
              ++ [point "_"; point "L"; point "o"; point "D"] ++ lod ++ [point "."] ++ ext).
    split.
    + exists d, pr, dl, lod, ext. repeat split; auto; lia.
    + destruct Htl as [-> | ->]; [left | right].
      * rewrite app_nil_r. reflexivity.
      * simpl. repeat (rewrite <- ?app_assoc; simpl). reflexivity.
  - intros (t & (d & pr & dl & lod & ext & -> & [Hd8 Hd] & [Hpr1 Hpr] & [Hdl1 Hdl]
                 & [Hl3 Hl] & [He1 He]) & Hs).
    rewrite <- (forallb_eq _ _ d class_digit) in Hd.
    rewrite <- (forallb_eq _ _ lod class_digit) in Hl.
    rewrite <- (forallb_eq _ _ pr class_upper_digit) in Hpr.
    rewrite <- (forallb_eq _ _ dl class_alnum) in Hdl.
    rewrite <- (forallb_eq _ _ ext class_lower_digit) in He.
    assert (Hs' : exists tl, (tl = [] \/ tl = [10%N]) /\
              cps = d ++ point "_" :: pr ++ point "_" :: dl ++ point "_" :: point "L"
                      :: point "o" :: point "D" :: lod ++ point "." :: ext ++ tl).
    { destruct Hs as [-> | ->].
      - exists []. split; [auto|]. rewrite app_nil_r. reflexivity.
      - exists [10%N]. split; [auto|]. simpl.
        repeat (rewrite <- ?app_assoc; simpl). reflexivity. }
    destruct Hs' as (tl & Htl & ->). clear Hs.
    part. exists d; eexists; do 4 part.
    eexists; part.
    exists pr; eexists; do 4 part.
    eexists; part.
    exists dl; eexists; do 4 part.
    do 4 (eexists; part).
    exists lod; eexists; do 4 part.
    eexists; part.
    exists ext, tl. do 5 part. exact I.
Qed.

(** The names [re.match(SOP_PATTERN, _)] accepts. *)
Lemma re_match_SOP_iff s :
  re_match SOP_PATTERN s = true <->
  exists cps t, codepoints s = Some cps /\ accepted_points t /\
                (cps = t \/ cps = t ++ [10%N]).
Proof.
  unfold re_match. destruct (codepoints s) as [cps|].
  - rewrite match_SOP_iff. split.
    + intros (t & Ht & Hs). eauto.
    + intros (cps' & t & [= <-] & Ht & Hs). eauto.
  - split; [discriminate|]. intros (cps & t & H & _). discriminate.
Qed.

(** ** Strings *)

Lemma every_ext f g s :
  (forall c, f c = g c) -> every f s = every g s.
Proof. intros E. induction s as [|c s IH]; simpl; [reflexivity|]. rewrite E, IH. reflexivity. Qed.

Lemma every_app f u v : every f (u +:+ v) = every f u && every f v.
Proof. induction u as [|c u IH]; simpl; [reflexivity|]. rewrite IH. apply andb_assoc. Qed.

Lemma every_weaken (f g : ascii -> bool) s :
  (forall c, f c = true -> g c = true) -> every f s = true -> every g s = true.
Proof.
  intros Hfg. induction s as [|c s IH]; simpl; [auto|].
  rewrite !andb_true_iff. intros [Hc Hs]. auto.
Qed.

Lemma append_nil_r s : s +:+ "" = s.
Proof. induction s as [|c s IH]; simpl; [reflexivity|]. rewrite IH. reflexivity. Qed.

Lemma append_assoc u v w : (u +:+ v) +:+ w = u +:+ (v +:+ w).
Proof. induction u as [|c u IH]; simpl; [reflexivity|]. rewrite IH. reflexivity. Qed.

Lemma conforming_alphabet t : conforming t -> every in_alphabet t = true.
Proof.
  intros (d & pr & dl & lod & ext & -> & [_ Hd] & [_ Hpr] & [_ Hdl] & [_ Hl] & [_ He]).
  rewrite !every_app, !andb_true_iff.
  repeat split; try reflexivity;
    match goal with
    | |- every in_alphabet ?u = true =>
        match goal with
        | H : every _ u = true |- _ =>
            revert H; apply every_weaken; unfold in_alphabet; intros c Hc
        end
    end.
  - rewrite Hc, !orb_true_r. reflexivity.
  - apply orb_true_iff in Hc as [-> | ->]; rewrite ?orb_true_r; reflexivity.
  - apply orb_true_iff in Hc as [Hc | ->]; [|rewrite ?orb_true_r; reflexivity].
    apply orb_true_iff in Hc as [-> | ->]; rewrite ?orb_true_r; reflexivity.
  - rewrite Hc, !orb_true_r. reflexivity.
  - apply orb_true_iff in Hc as [-> | ->]; rewrite ?orb_true_r; reflexivity.
Qed.

Lemma prefix_every f sub : forall s,
  String.prefix sub s = true -> every f s = true -> every f sub = true.
Proof.
  induction sub as [|a sub IH]; intros s; [reflexivity|].
  destruct s as [|b s]; simpl; [discriminate|].
  destruct (Ascii.ascii_dec a b) as [->|_]; [|discriminate].
  rewrite !andb_true_iff. intros Hp [Hb Hs]. eauto.
Qed.

Lemma contains_every f sub s :
  contains sub s = true -> every f s = true -> every f sub = true.
Proof.
  induction s as [|b s IH]; cbn [contains].
  - rewrite orb_false_r. apply prefix_every.
  - intros H Hs. apply orb_true_iff in H as [H|H].
    + eapply prefix_every; eauto.
    + simpl in Hs. apply andb_true_iff in Hs as [_ Hs]. auto.
Qed.

Lemma prefix_append s v : String.prefix s (s +:+ v) = true.
Proof.
  induction s as [|c s IH]; [destruct v; reflexivity|].
  change (String c s +:+ v) with (String c (s +:+ v)). cbn [String.prefix].
  destruct (Ascii.ascii_dec c c); [exact IH | congruence].
Qed.

Lemma contains_prefix s t : String.prefix s t = true -> contains s t = true.
Proof. intros H. destruct t; cbn [contains]; rewrite H; reflexivity. Qed.

Lemma contains_append s u v : contains s (u +:+ s +:+ v) = true.
Proof.
  induction u as [|c u IH].
  - change ("" +:+ s +:+ v) with (s +:+ v).
    apply contains_prefix, prefix_append.
  - change (String c u +:+ s +:+ v) with (String c (u +:+ s +:+ v)).
    cbn [contains]. rewrite IH. apply orb_true_r.
Qed.

Lemma prefix_split sub : forall s,
  String.prefix sub s = true -> exists v, s = sub +:+ v.
Proof.
  induction sub as [|a sub IH]; intros s H; [exists s; reflexivity|].
  destruct s as [|c s]; [discriminate|]. cbn [String.prefix] in H.
  destruct (Ascii.ascii_dec a c) as [->|]; [|discriminate].
  destruct (IH s H) as (v & ->). exists v. reflexivity.
Qed.

Lemma contains_split sub s :
  contains sub s = true <-> exists u v, s = u +:+ sub +:+ v.
Proof.
  split.
  - induction s as [|c s IH]; cbn [contains]; intros H.
    + rewrite orb_false_r in H. apply prefix_split in H as (v & ->).
      exists "", v. reflexivity.
    + apply orb_true_iff in H as [H|H].
      * apply prefix_split in H as (v & ->). exists "", v. reflexivity.
      * destruct (IH H) as (u & v & ->). exists (String c u), v. reflexivity.
  - intros (u & v & ->). apply contains_append.
Qed.

Lemma startswith_dot s :
  startswith s "." = true <-> exists r, s = String "." r.
Proof.
  unfold startswith. split.
  - intros H. apply prefix_split in H as (v & ->). exists v. reflexivity.
  - intros (r & ->). cbn [String.prefix].
    destruct (Ascii.ascii_dec "." "."); [destruct r; reflexivity | congruence].
Qed.

Lemma app_not_self {A} (l t : list A) : l ++ t = l -> t = [].
Proof.
  intros H. apply (f_equal (@length A)) in H. rewrite length_app in H.
  destruct t; [reflexivity | simpl in H; lia].
Qed.

Lemma quarantine_key_fresh (b n : string) : (b, "quarantine/" +:+ n) <> (b, n).
Proof.
  intros H. injection H as H. apply (f_equal String.length) in H.
  simpl in H. lia.
Qed.

Lemma refuses_observe e w : refuses (observe e w) = refuses w.
Proof. reflexivity. Qed.

Lemma objects_observe e w : objects (observe e w) = objects w.
Proof. reflexivity. Qed.

Lemma refuses_with_objects o w : refuses (with_objects o w) = refuses w.
Proof. reflexivity. Qed.

Lemma objects_with_objects o w : objects (with_objects o w) = o.
Proof. reflexivity. Qed.

(** ** Bytes and characters *)

Lemma continuation_high c x : continuation c = Some x -> (128 <= N_of_ascii c)%N.
Proof.
  unfold continuation.
  destruct ((128 <=? N_of_ascii c)%N && (N_of_ascii c <=? 191)%N) eqn:E; [|discriminate].
  intros _. apply andb_true_iff in E as [E _]. apply N.leb_le in E. exact E.
Qed.

(** Every byte of a string is either part of a character beyond ASCII or an
    ASCII character of the string. *)
Lemma codepoints_every (Q : N -> bool) : forall n s cps,
  String.length s <= n ->
  codepoints s = Some cps ->
  forallb Q cps = true ->
  every (fun c => (128 <=? N_of_ascii c)%N || Q (N_of_ascii c)) s = true.
Proof.
  induction n as [|n IH]; intros s cps Hn Hc HQ.
  { destruct s; [reflexivity | simpl in Hn; lia]. }
  destruct s as [|c0 s1]; [reflexivity|].
  cbn [codepoints] in Hc. cbn zeta in Hc.
  destruct (N_of_ascii c0 <? 128)%N eqn:E0.
  { destruct (codepoints s1) as [l|] eqn:E1; [|discriminate].
    injection Hc as <-. simpl in HQ. apply andb_true_iff in HQ as [Hq Hl].
    simpl. rewrite Hq, orb_true_r. simpl.
    apply (IH s1 l); [simpl in Hn; lia | exact E1 | exact Hl]. }
  apply N.ltb_ge in E0.
  assert (H0 : (128 <=? N_of_ascii c0)%N = true) by (apply N.leb_le; exact E0).
  destruct ((194 <=? N_of_ascii c0)%N && (N_of_ascii c0 <=? 223)%N).
  { destruct s1 as [|c1 s2]; [discriminate|].
    destruct (continuation c1) as [x1|] eqn:C1; [|discriminate].
    destruct (codepoints s2) as [l|] eqn:E2; [|discriminate].
    injection Hc as <-. simpl in HQ. apply andb_true_iff in HQ as [_ Hl].
    apply continuation_high, N.leb_le in C1.
    simpl. rewrite H0, C1. simpl.
    apply (IH s2 l); [simpl in Hn; lia | exact E2 | exact Hl]. }
  destruct ((224 <=? N_of_ascii c0)%N && (N_of_ascii c0 <=? 239)%N).
  { destruct s1 as [|c1 [|c2 s3]]; try discriminate.
    destruct (continuation c1) as [x1|] eqn:C1; [|discriminate].
    destruct (continuation c2) as [x2|] eqn:C2; [|discriminate].
    destruct (codepoints s3) as [l|] eqn:E3; [|discriminate].
    destruct (_ && _) in Hc; [|discriminate].
    injection Hc as <-. simpl in HQ. apply andb_true_iff in HQ as [_ Hl].
    apply continuation_high, N.leb_le in C1. apply continuation_high, N.leb_le in C2.
    simpl. rewrite H0, C1, C2. simpl.
    apply (IH s3 l); [simpl in Hn; lia | exact E3 | exact Hl]. }
  destruct ((240 <=? N_of_ascii c0)%N && (N_of_ascii c0 <=? 244)%N); [|discriminate].
  destruct s1 as [|c1 [|c2 [|c3 s4]]]; try discriminate.
  destruct (continuation c1) as [x1|] eqn:C1; [|discriminate].
  destruct (continuation c2) as [x2|] eqn:C2; [|discriminate].
  destruct (continuation c3) as [x3|] eqn:C3; [|discriminate].
  destruct (codepoints s4) as [l|] eqn:E4; [|discriminate].
  destruct (_ && _) in Hc; [|discriminate].
  injection Hc as <-. simpl in HQ. apply andb_true_iff in HQ as [_ Hl].
  apply continuation_high, N.leb_le in C1. apply continuation_high, N.leb_le in C2.
  apply continuation_high, N.leb_le in C3.
  simpl. rewrite H0, C1, C2, C3. simpl.
  apply (IH s4 l); [simpl in Hn; lia | exact E4 | exact Hl].
Qed.

(** An ASCII first byte is the first character. *)
Lemma codepoints_ascii_head c r cps :
  (N_of_ascii c < 128)%N ->
  codepoints (String c r) = Some cps ->
  exists l, cps = N_of_ascii c :: l.
Proof.
  intros Hc H. cbn [codepoints] in H. cbn zeta in H.
  apply N.ltb_lt in Hc. rewrite Hc in H.
  destruct (codepoints r) as [l|]; [|discriminate].
  injection H as <-. eauto.
Qed.

(** ** Facts about the accepted names *)

Lemma decimal_allowed cp : is_decimal cp = true -> allowed_point cp = true.
Proof.
  unfold is_decimal, allowed_point. destruct (cp <? 128)%N eqn:E.
  - intros ->. rewrite !orb_true_r. reflexivity.
  - intros _. apply N.ltb_ge, N.leb_le in E. rewrite E. reflexivity.
Qed.

Lemma accepted_allowed t : accepted_points t -> forallb allowed_point t = true.
Proof.
  intros (d & pr & dl & lod & ext & -> & [_ Hd] & [_ Hpr] & [_ Hdl] & [_ Hl] & [_ He]).
  rewrite !forallb_app, !andb_true_iff.
  repeat split; try reflexivity;
    match goal with
    | |- forallb allowed_point ?u = true =>
        match goal with
        | H : forallb _ u = true |- _ =>
            revert H; apply forallb_weaken; intros c Hc
        end
    end.
  - apply decimal_allowed, Hc.
  - unfold allowed_point.
    apply orb_true_iff in Hc as [-> | ->]; rewrite ?orb_true_r; reflexivity.
  - unfold allowed_point.
    apply orb_true_iff in Hc as [Hc | ->]; [|rewrite ?orb_true_r; reflexivity].
    apply orb_true_iff in Hc as [-> | ->]; rewrite ?orb_true_r; reflexivity.
  - apply decimal_allowed, Hc.
  - unfold allowed_point.
    apply orb_true_iff in Hc as [-> | ->]; rewrite ?orb_true_r; reflexivity.
Qed.

Lemma accepted_starts_with_decimal t :
  accepted_points t -> exists c l, t = c :: l /\ is_decimal c = true.
Proof.
  intros (d & pr & dl & lod & ext & -> & [Hd8 Hd] & _).
  destruct d as [|c d]; [discriminate|]. simpl in Hd.
  apply andb_true_iff in Hd as [Hc _]. simpl. eauto.
Qed.

(** The bytes of an accepted name: ASCII letters and digits, underscore,
    dot, line feed, and bytes of characters beyond ASCII. *)
Lemma matched_bytes s :
  re_match SOP_PATTERN s = true ->
  every (fun c => (128 <=? N_of_ascii c)%N || allowed_point (N_of_ascii c)) s = true.
Proof.
  intros H. apply re_match_SOP_iff in H as (cps & t & Hc & Ht & Hs).
  apply (codepoints_every allowed_point (String.length s) s cps); [lia | exact Hc |].
  apply accepted_allowed in Ht.
  destruct Hs as [-> | ->]; [exact Ht|].
  rewrite forallb_app, Ht. reflexivity.
Qed.

(** No accepted name holds a [/]. *)
Lemma slash_not_matched s :
  contains "/" s = true -> re_match SOP_PATTERN s = false.
Proof.
  intros Hc. destruct (re_match SOP_PATTERN s) eqn:E; [|reflexivity].
  apply matched_bytes in E. eapply contains_every in Hc; [|exact E].
  discriminate.
Qed.

(** An accepted name is never one that line 20 skips. *)
Lemma matched_not_excluded s :
  re_match SOP_PATTERN s = true -> excluded s = false.
Proof.
  intros H. unfold excluded. apply orb_false_iff. split.
  - destruct (contains "quarantine/" s) eqn:E; [|reflexivity].
    eapply contains_every in E; [|apply matched_bytes, H]. discriminate.
  - destruct (startswith s ".") eqn:E; [|reflexivity]. exfalso.
    apply startswith_dot in E as (r & ->).
    apply re_match_SOP_iff in H as (cps & t & Hc & Ht & Hs).
    apply codepoints_ascii_head in Hc as (l & ->); [|reflexivity].
    apply accepted_starts_with_decimal in Ht as (c & t' & -> & Hd).
    destruct Hs as [Hs | Hs]; simpl in Hs; injection Hs as Hs _; subst c;
      discriminate.
Qed.

Example sop_accepts : re_match SOP_PATTERN "20240115_PRJ1_Scan_LoD200.las" = true.
Proof. reflexivity. Qed.

Example sop_rejects : re_match SOP_PATTERN "scan_final.las" = false.
Proof. reflexivity. Qed.

(** ** Runs of the cloud function *)

Lemma nameless_quarantine n : nameless ("quarantine/" +:+ n) = false.
Proof. reflexivity. Qed.

Ltac run_validator :=
  unfold validate_naming_convention, mbind, M_bind, mret, M_ret, print,
    copy_blob, delete, blob_key; cbn [data bucket name bucket_id blob_bucket blob_name].

(** The three ways through the function. *)
Lemma run_excluded ev w :
  excluded (name (data ev)) = true ->
  validate_naming_convention ev w = (Returned tt, w).
Proof. unfold excluded. intros H. run_validator. rewrite H. reflexivity. Qed.

Lemma run_compliant ev w :
  re_match SOP_PATTERN (name (data ev)) = true ->
  validate_naming_convention ev w =
    (Returned tt, observe (Printed (compliant_line (name (data ev)))) w).
Proof.
  intros H. pose proof (matched_not_excluded _ H) as Hx. unfold excluded in Hx.
  run_validator. rewrite Hx, H. reflexivity.
Qed.

Lemma run_violation ev w :
  let b := bucket (data ev) in
  let n := name (data ev) in
  let q := "quarantine/" +:+ n in
  let w1 := observe (Issued (CopyBlob b n b q)) (observe (Printed (violation_line n)) w) in
  excluded n = false ->
  re_match SOP_PATTERN n = false ->
  validate_naming_convention ev w =
    if nameless n then (Raised ValueError, w1)
    else
      match refuses w (CopyBlob b n b q), objects w !! (b, n) with
      | Some e, _ => (Raised e, w1)
      | None, None => (Raised NotFound, w1)
      | None, Some v =>
          let w2 := observe (Issued (DeleteBlob b n))
                      (with_objects (<[(b, q) := v]> (objects w)) w1) in
          match refuses w (DeleteBlob b n) with
          | Some e => (Raised e, w2)
          | None => (Returned tt,
                     with_objects (base.delete (b, n) (<[(b, q) := v]> (objects w))) w2)
          end
      end.
Proof.
  intros b n q w1 Hx Hm. unfold excluded in Hx. subst w1 q b n.
  run_validator. rewrite Hx, Hm. cbn [negb].
  rewrite refuses_observe, objects_observe, nameless_quarantine, orb_false_r.
  destruct (nameless (name (data ev))) eqn:Hn; [reflexivity|].
  destruct (refuses w (CopyBlob _ _ _ _)) as [e|]; [reflexivity|].
  destruct (objects w !! _) as [v|] eqn:Ho; [|reflexivity].
  rewrite refuses_with_objects, refuses_observe, refuses_observe.
  destruct (refuses w (DeleteBlob _ _)) as [e|]; [reflexivity|].
  rewrite objects_with_objects.
  rewrite lookup_insert_ne by apply quarantine_key_fresh.
  rewrite Ho. reflexivity.
Qed.

Lemma response_copy (w : world) (b n : string) :
  response w (CopyBlob b n b ("quarantine/" +:+ n)) =
    if nameless n then Some ValueError
    else match refuses w (CopyBlob b n b ("quarantine/" +:+ n)) with
         | Some e => Some e
         | None => match objects w !! (b, n) with
                   | None => Some NotFound
                   | Some _ => None
                   end
         end.
Proof.
  unfold response. cbn [unnamed source]. rewrite nameless_quarantine, orb_false_r.
  reflexivity.
Qed.

Lemma run_violation_trace (ev : CloudEvent) (w : world) :
  let b := bucket (data ev) in
  let n := name (data ev) in
  let copy := CopyBlob b n b ("quarantine/" +:+ n) in
  excluded n = false ->
  re_match SOP_PATTERN n = false ->
  trace (snd (validate_naming_convention ev w)) =
    trace w ++ Printed (violation_line n) :: Issued copy ::
      (if serves w copy then [Issued (DeleteBlob b n)] else []).
Proof.
  intros b n copy Hx Hm. rewrite (run_violation ev w Hx Hm).
  unfold serves. subst copy. rewrite response_copy. subst b n.
  destruct (nameless _); [simpl; rewrite <- app_assoc; reflexivity|].
  destruct (refuses w (CopyBlob _ _ _ _)) as [e|];
    [simpl; rewrite <- app_assoc; reflexivity|].
  destruct (objects w !! _) as [v|]; [|simpl; rewrite <- app_assoc; reflexivity].
  destruct (refuses w (DeleteBlob _ _)); simpl; rewrite <- !app_assoc; reflexivity.
Qed.

Lemma run_takes_branch (ev : CloudEvent) (w : world) :
  validate_naming_convention ev w =
    takes (branch_of (name (data ev))) (bucket (data ev)) (name (data ev)) w.
Proof.
  unfold branch_of, excluded, takes, validate_naming_convention.
  destruct (contains _ _ || startswith _ _); [reflexivity|].
  destruct (negb _); reflexivity.
Qed.

Lemma takes_observed (br : branch) (b n : string) (w : world) :
  exists t, trace (snd (takes br b n w)) = trace w ++ t /\
            printed t = log_of br n /\
            Forall (addresses b) (issued t).
Proof.
  destruct br; cbn [takes log_of].
  - exists []. cbn. rewrite app_nil_r. repeat split. constructor.
  - eexists. split; [reflexivity|]. repeat split. constructor.
  - unfold mbind, M_bind, print, copy_blob, delete, blob_key.
    cbn [bucket_id blob_bucket blob_name].
    rewrite refuses_observe, objects_observe, nameless_quarantine, orb_false_r.
    destruct (nameless n) eqn:Hn.
    { eexists. cbn [snd trace observe]. rewrite <- app_assoc.
      split; [reflexivity|]. split; [reflexivity|]. repeat constructor. }
    destruct (refuses w (CopyBlob _ _ _ _)) as [e|].
    { eexists. cbn [snd trace observe]. rewrite <- app_assoc.
      split; [reflexivity|]. split; [reflexivity|].
      repeat constructor. }
    destruct (objects w !! _) as [v|].
    2:{ eexists. cbn [snd trace observe]. rewrite <- app_assoc.
        split; [reflexivity|]. split; [reflexivity|]. repeat constructor. }
    rewrite refuses_with_objects, !refuses_observe, objects_with_objects.
    destruct (refuses w (DeleteBlob _ _)) as [e|];
      [|destruct (_ !! _)];
      eexists; cbn [snd trace observe with_objects]; rewrite <- !app_assoc;
      (split; [reflexivity|]); (split; [reflexivity|]); repeat constructor.
Qed.

Lemma run_frame (ev : CloudEvent) (w : world) (k : string * string) :
  let b := bucket (data ev) in
  let n := name (data ev) in
  k <> (b, n) ->
  k <> (b, "quarantine/" +:+ n) ->
  objects (snd (validate_naming_convention ev w)) !! k = objects w !! k.
Proof.
  intros b n Hk Hq.
  destruct (excluded n) eqn:Hx; [rewrite (run_excluded ev w Hx); reflexivity|].
  destruct (re_match SOP_PATTERN n) eqn:Hm; [rewrite (run_compliant ev w Hm); reflexivity|].
  rewrite (run_violation ev w Hx Hm). fold b n.
  destruct (nameless n); [reflexivity|].
  destruct (refuses w (CopyBlob _ _ _ _)); [reflexivity|].
  destruct (objects w !! (b, n)); [|reflexivity].
  destruct (refuses w (DeleteBlob _ _)); cbn [snd objects with_objects observe].
  - rewrite lookup_insert_ne by congruence. reflexivity.
  - rewrite lookup_delete_ne, lookup_insert_ne by congruence. reflexivity.
Qed.

(** What a run on the quarantine path leaves behind, by the answers the two
    calls get. *)
Lemma run_violation_outcome (ev : CloudEvent) (w : world) :
  let b := bucket (data ev) in
  let n := name (data ev) in
  let q := "quarantine/" +:+ n in
  let copy := CopyBlob b n b q in
  let out := validate_naming_convention ev w in
  excluded n = false ->
  re_match SOP_PATTERN n = false ->
  (forall e, response w copy = Some e ->
     fst out = Raised e /\ objects (snd out) = objects w) /\
  (response w copy = None -> is_Some (objects w !! (b, n))) /\
  (response w copy = None -> refuses w (DeleteBlob b n) = None ->
     fst out = Returned tt /\
     objects (snd out) !! (b, n) = None /\
     objects (snd out) !! (b, q) = objects w !! (b, n)) /\
  (response w copy = None -> forall e, refuses w (DeleteBlob b n) = Some e ->
     fst out = Raised e /\
     objects (snd out) !! (b, n) = objects w !! (b, n) /\
     objects (snd out) !! (b, q) = objects w !! (b, n)).
Proof.
  intros b n q copy out Hx Hm. subst out copy. rewrite (run_violation ev w Hx Hm).
  rewrite response_copy. fold b n. fold q.
  destruct (nameless n).
  { split; [intros e [= <-]; split; reflexivity|]. repeat split; discriminate. }
  destruct (refuses w (CopyBlob b n b q)) as [e1|].
  { split; [intros e [= <-]; split; reflexivity|]. repeat split; discriminate. }
  destruct (objects w !! (b, n)) as [v|] eqn:Ho.
  2:{ split; [intros e [= <-]; split; reflexivity|]. repeat split; discriminate. }
  split; [discriminate|]. split; [eauto|]. split.
  - intros _ ->. cbn [fst snd objects with_objects observe].
    split; [reflexivity|]. split; [apply lookup_delete_eq|].
    rewrite lookup_delete_ne by (intros E; symmetry in E; revert E; apply quarantine_key_fresh).
    apply lookup_insert_eq.
  - intros _ e ->. cbn [fst snd objects with_objects observe].
    split; [reflexivity|]. split.
    + rewrite lookup_insert_ne by apply quarantine_key_fresh. exact Ho.
    + apply lookup_insert_eq.
Qed.

(** ** The properties *)

(** C1, amended. For every event whose name holds no ["quarantine/"], neither
    starts with a dot nor has a final path segment that starts with a dot,
    and does not match the pattern, the function prints the violation line,
    which names the key, and calls one copy of (bucket, name) to (bucket,
    "quarantine/" + name).  When the copy succeeds it then calls one delete
    of (bucket, name), after the copy; when the copy fails the invocation
    ends with the copy's error and no delete is called. *)
Theorem violation_copies_then_deletes (ev : CloudEvent) (w : world) :
  let b := bucket (data ev) in
  let n := name (data ev) in
  let copy := CopyBlob b n b ("quarantine/" +:+ n) in
  let out := validate_naming_convention ev w in
  contains "quarantine/" n = false ->
  startswith n "." = false ->
  startswith (final_segment n) "." = false ->
  re_match SOP_PATTERN n = false ->
  trace (snd out) =
    trace w ++ Printed (violation_line n) :: Issued copy ::
      (if serves w copy then [Issued (DeleteBlob b n)] else []) /\
  contains n (violation_line n) = true /\
  (forall e, response w copy = Some e -> fst out = Raised e).
Proof.
  intros b n copy out Hq Hd _ Hm.
  assert (Hx : excluded n = false) by (unfold excluded; rewrite Hq, Hd; reflexivity).
  split; [apply (run_violation_trace ev w Hx Hm)|].
  split; [apply contains_append|].
  intros e He. destruct (run_violation_outcome ev w Hx Hm) as (H1 & _).
  apply (H1 e He).
Qed.

(** C2 fails at ["site/.DS_Store"]: the final segment of the key starts with
    a dot, yet line 20 does not skip it; it is copied to the quarantine
    prefix and deleted. *)
Theorem hidden_file_in_folder_is_quarantined :
  let n := "site/.DS_Store" in
  startswith (final_segment n) "." = true /\
  validate_naming_convention (upload "scans" n) (holding "scans" n "Bud1" quiet) <>
    (Returned tt, holding "scans" n "Bud1" quiet) /\
  issued (trace (snd (validate_naming_convention (upload "scans" n)
                        (holding "scans" n "Bud1" quiet)))) =
    [ CopyBlob "scans" n "scans" "quarantine/site/.DS_Store";
      DeleteBlob "scans" n ].
Proof.
  split; [reflexivity|]. split; [|reflexivity].
  intros H. apply (f_equal (fun o => length (trace (snd o)))) in H.
  vm_compute in H. discriminate.
Qed.

(** C3. For every name that matches the pattern (such a name is never one
    the exclusion test skips) the function returns normally, issues no copy
    and no delete, leaves the objects as they were, and prints the
    compliance line and nothing else. *)
Theorem compliant_name_mutates_nothing (ev : CloudEvent) (w : world) :
  re_match SOP_PATTERN (name (data ev)) = true ->
  let out := validate_naming_convention ev w in
  excluded (name (data ev)) = false /\
  fst out = Returned tt /\
  objects (snd out) = objects w /\
  trace (snd out) = trace w ++ [Printed (compliant_line (name (data ev)))].
Proof.
  intros H out. subst out. rewrite (run_compliant ev w H).
  split; [apply matched_not_excluded, H|]. repeat split.
Qed.

(** C4 does not hold of the code: [$] also matches just before a final line
    feed, so a conforming name followed by a line feed is accepted although
    it has an extra character at its end, and the function treats it as
    compliant. *)
Theorem trailing_line_feed_is_accepted :
  let n := "20240115_PRJ1_Scan_LoD200.las" +:+ String "010" "" in
  re_match SOP_PATTERN n = true /\
  ~ conforming n /\
  forall b w,
    validate_naming_convention (upload b n) w =
      (Returned tt, observe (Printed (compliant_line n)) w).
Proof.
  intros n. split; [reflexivity|]. split.
  - intros H. apply conforming_alphabet in H. discriminate.
  - intros b w. apply run_compliant. reflexivity.
Qed.

(** C5. When a quarantine run returns normally (copy and delete both
    succeeded), no object is left at the original key, and the content that
    was there is at ["quarantine/" + key] in the same bucket. *)
Theorem successful_quarantine_moves_object (ev : CloudEvent) (w : world) :
  let b := bucket (data ev) in
  let n := name (data ev) in
  let out := validate_naming_convention ev w in
  excluded n = false ->
  re_match SOP_PATTERN n = false ->
  fst out = Returned tt ->
  objects (snd out) !! (b, n) = None /\
  exists v, objects w !! (b, n) = Some v /\
            objects (snd out) !! (b, "quarantine/" +:+ n) = Some v.
Proof.
  intros b n out Hx Hm. subst out. rewrite (run_violation ev w Hx Hm).
  subst b n.
  destruct (nameless _); [discriminate|].
  destruct (refuses w (CopyBlob _ _ _ _)) as [e|]; [discriminate|].
  destruct (objects w !! _) as [v|]; [|discriminate].
  destruct (refuses w (DeleteBlob _ _)); [discriminate|].
  intros _. cbn [snd objects with_objects observe]. split.
  - apply lookup_delete_eq.
  - exists v. split; [reflexivity|].
    rewrite lookup_delete_ne by (intros E; symmetry in E; revert E; apply quarantine_key_fresh).
    apply lookup_insert_eq.
Qed.

(** C6. A failure of the store is not caught.  If the copy fails (refused,
    or the source is missing) the invocation ends with that error right
    after issuing the copy: no delete is issued and the objects are as
    before.  If the copy succeeds and the delete is refused, the invocation
    ends with the delete's error and the object is at both keys: the copy is
    not undone. *)
Theorem storage_failure_propagates (ev : CloudEvent) (w : world) (e : exception) :
  let b := bucket (data ev) in
  let n := name (data ev) in
  let q := "quarantine/" +:+ n in
  let copy := CopyBlob b n b q in
  let out := validate_naming_convention ev w in
  excluded n = false ->
  re_match SOP_PATTERN n = false ->
  (response w copy = Some e ->
     out = (Raised e, observe (Issued copy) (observe (Printed (violation_line n)) w))) /\
  (response w copy = None -> refuses w (DeleteBlob b n) = Some e ->
     fst out = Raised e /\
     issued (trace (snd out)) = issued (trace w) ++ [copy; DeleteBlob b n] /\
     exists v, objects w !! (b, n) = Some v /\
               objects (snd out) = <[(b, q) := v]> (objects w) /\
               objects (snd out) !! (b, n) = Some v /\
               objects (snd out) !! (b, q) = Some v).
Proof.
  intros b n q copy out Hx Hm. subst out. rewrite (run_violation ev w Hx Hm).
  subst copy q. rewrite response_copy. subst b n.
  destruct (nameless _).
  { split; [intros [= ->]; reflexivity | discriminate]. }
  destruct (refuses w (CopyBlob _ _ _ _)) as [e1|].
  { split; [intros [= ->]; reflexivity | discriminate]. }
  destruct (objects w !! _) as [v|] eqn:Ho.
  2:{ split; [intros [= <-]; reflexivity | discriminate]. }
  split; [discriminate|]. intros _ Hd. rewrite Hd.
  cbn [fst snd objects trace with_objects observe]. split; [reflexivity|]. split.
  { unfold issued. rewrite !omap_app, <- !app_assoc. reflexivity. }
  exists v. split; [reflexivity|]. split; [reflexivity|]. split.
  - rewrite lookup_insert_ne by apply quarantine_key_fresh. exact Ho.
  - apply lookup_insert_eq.
Qed.

Lemma lowercase_not_in_project_code cp :
  lower_point cp = true -> in_class upper_digit cp = false.
Proof.
  rewrite class_upper_digit. unfold lower_point, upper_point, digit_point.
  change (point "a") with 97%N. change (point "z") with 122%N.
  change (point "A") with 65%N. change (point "Z") with 90%N.
  change (point "0") with 48%N. change (point "9") with 57%N.
  rewrite andb_true_iff, !N.leb_le. intros [Ha _].
  apply orb_false_iff. split; apply andb_false_iff; right; apply N.leb_gt; lia.
Qed.

(** C7, amended. ["20240115_prj1_scan_LoD200.las"] fails the pattern, and
    fails it at the project code: that field's set admits no lowercase
    letter, and the same name with the project code in upper case is
    accepted.  The function prints the violation line and calls the copy to
    ["quarantine/20240115_prj1_scan_LoD200.las"].  When the copy succeeds it
    calls the delete of the original, and when the delete succeeds too the
    run returns with nothing at the original key and the original content at
    the quarantine key.  When the copy fails the run ends with its error, no
    delete is called and the objects are unchanged; when the delete fails
    the run ends with its error and the content is at both keys. *)
Theorem lowercase_project_code_is_quarantined (b : string) (w : world) :
  let n := "20240115_prj1_scan_LoD200.las" in
  let q := "quarantine/20240115_prj1_scan_LoD200.las" in
  let copy := CopyBlob b n b q in
  let out := validate_naming_convention (upload b n) w in
  (re_match SOP_PATTERN n = false /\
   (forall cp, lower_point cp = true -> in_class upper_digit cp = false) /\
   re_match SOP_PATTERN "20240115_PRJ1_scan_LoD200.las" = true /\
   excluded n = false) /\
  trace (snd out) =
    trace w ++ Printed (violation_line n) :: Issued copy ::
      (if serves w copy then [Issued (DeleteBlob b n)] else []) /\
  (forall e, response w copy = Some e ->
     fst out = Raised e /\ objects (snd out) = objects w) /\
  (response w copy = None -> is_Some (objects w !! (b, n))) /\
  (response w copy = None -> refuses w (DeleteBlob b n) = None ->
     fst out = Returned tt /\
     objects (snd out) !! (b, n) = None /\
     objects (snd out) !! (b, q) = objects w !! (b, n)) /\
  (response w copy = None -> forall e, refuses w (DeleteBlob b n) = Some e ->
     fst out = Raised e /\
     objects (snd out) !! (b, n) = objects w !! (b, n) /\
     objects (snd out) !! (b, q) = objects w !! (b, n)).
Proof.
  intros n q copy out.
  split; [repeat split; try reflexivity; exact lowercase_not_in_project_code|].
  split; [apply (run_violation_trace (upload b n) w); reflexivity|].
  apply (run_violation_outcome (upload b n) w); reflexivity.
Qed.

(** C8, amended. A name with a [/] in it that the exclusion test does not
    skip cannot match: no set of the pattern admits [/].  The function
    prints the violation line and calls the copy to ["quarantine/" + name],
    the whole path kept.  When the copy succeeds it calls the delete of the
    original, and when the delete succeeds too the run returns with nothing
    at the original key and the original content at the quarantine key.
    When the copy fails the run ends with its error, no delete is called and
    the objects are unchanged; when the delete fails the run ends with its
    error and the content is at both keys. *)
Theorem key_with_slash_is_quarantined (ev : CloudEvent) (w : world) :
  let b := bucket (data ev) in
  let n := name (data ev) in
  let q := "quarantine/" +:+ n in
  let copy := CopyBlob b n b q in
  let out := validate_naming_convention ev w in
  contains "/" n = true ->
  excluded n = false ->
  (Forall (fun items => in_class items (point "/") = false)
     [digit; upper_digit; alnum; lower_digit] /\
   re_match SOP_PATTERN n = false) /\
  trace (snd out) =
    trace w ++ Printed (violation_line n) :: Issued copy ::
      (if serves w copy then [Issued (DeleteBlob b n)] else []) /\
  (forall e, response w copy = Some e ->
     fst out = Raised e /\ objects (snd out) = objects w) /\
  (response w copy = None -> is_Some (objects w !! (b, n))) /\
  (response w copy = None -> refuses w (DeleteBlob b n) = None ->
     fst out = Returned tt /\
     objects (snd out) !! (b, n) = None /\
     objects (snd out) !! (b, q) = objects w !! (b, n)) /\
  (response w copy = None -> forall e, refuses w (DeleteBlob b n) = Some e ->
     fst out = Raised e /\
     objects (snd out) !! (b, n) = objects w !! (b, n) /\
     objects (snd out) !! (b, q) = objects w !! (b, n)).
Proof.
  intros b n q copy out Hs Hx.
  pose proof (slash_not_matched n Hs) as Hm.
  split; [split; [repeat constructor | exact Hm]|].
  split; [apply (run_violation_trace ev w Hx Hm)|].
  apply (run_violation_outcome ev w Hx Hm).
Qed.

(** C9, amended. The empty name is neither rejected nor skipped: it holds no
    ["quarantine/"], does not start with a dot, and fails the pattern, so
    the function takes the quarantine path: it prints the violation line
    and calls the copy of the empty key to the bare key ["quarantine/"].
    The client refuses a blob without a name: the call ends with
    [ValueError], the delete is not reached, and no object changes. *)
Theorem empty_name_is_quarantined (b : string) (w : world) :
  contains "quarantine/" "" = false /\
  startswith "" "." = false /\
  re_match SOP_PATTERN "" = false /\
  validate_naming_convention (upload b "") w =
    (Raised ValueError,
     observe (Issued (CopyBlob b "" b "quarantine/"))
       (observe (Printed (violation_line "")) w)).
Proof.
  do 3 (split; [reflexivity|]).
  apply (run_violation (upload b "") w); reflexivity.
Qed.

(** C10. Which way the function goes is decided by the name alone: two
    events with the same name, whatever their buckets and whatever the worlds
    they run in, take the same branch and print the same lines; the bucket
    only tells which container the requests of a run address, and every
    request of a run addresses that run's own bucket. *)
Theorem branch_depends_on_name_only (ev1 ev2 : CloudEvent) (w1 w2 : world) :
  name (data ev1) = name (data ev2) ->
  let br := branch_of (name (data ev1)) in
  branch_of (name (data ev2)) = br /\
  validate_naming_convention ev1 w1 =
    takes br (bucket (data ev1)) (name (data ev1)) w1 /\
  validate_naming_convention ev2 w2 =
    takes br (bucket (data ev2)) (name (data ev2)) w2 /\
  exists t1 t2,
    trace (snd (validate_naming_convention ev1 w1)) = trace w1 ++ t1 /\
    trace (snd (validate_naming_convention ev2 w2)) = trace w2 ++ t2 /\
    printed t1 = log_of br (name (data ev1)) /\
    printed t2 = log_of br (name (data ev1)) /\
    Forall (addresses (bucket (data ev1))) (issued t1) /\
    Forall (addresses (bucket (data ev2))) (issued t2).
Proof.
  intros Hn br. subst br.
  rewrite (run_takes_branch ev1 w1), (run_takes_branch ev2 w2), <- Hn.
  do 3 (split; [reflexivity|]).
  destruct (takes_observed (branch_of (name (data ev1))) (bucket (data ev1))
              (name (data ev1)) w1) as (t1 & H1 & Hp1 & Ha1).
  destruct (takes_observed (branch_of (name (data ev1))) (bucket (data ev2))
              (name (data ev1)) w2) as (t2 & H2 & Hp2 & Ha2).
  exists t1, t2. repeat split; assumption.
Qed.

(** ** Names made of ASCII characters *)

Lemma codepoints_ascii s :
  every (fun c => (N_of_ascii c <? 128)%N) s = true -> codepoints s = Some (points s).
Proof.
  induction s as [|c s IH]; [reflexivity|]. simpl every.
  intros H. apply andb_true_iff in H as [Hc Hs].
  cbn [codepoints points]. cbn zeta. rewrite Hc, (IH Hs). reflexivity.
Qed.

Lemma points_app u v : points (u +:+ v) = points u ++ points v.
Proof. induction u as [|c u IH]; simpl; [reflexivity|]. rewrite IH. reflexivity. Qed.

Lemma points_length s : length (points s) = String.length s.
Proof. induction s as [|c s IH]; simpl; [reflexivity|]. rewrite IH. reflexivity. Qed.

Lemma points_forallb (Q : N -> bool) s :
  forallb Q (points s) = every (fun c => Q (N_of_ascii c)) s.
Proof. induction s as [|c s IH]; simpl; [reflexivity|]. rewrite IH. reflexivity. Qed.

Lemma points_cons c l s :
  points s = point c :: l -> exists s', s = String c s' /\ points s' = l.
Proof.
  destruct s as [|a s]; [discriminate|]. simpl. intros [= Ha Hl].
  exists s. split; [|exact Hl]. f_equal.
  unfold point in Ha. rewrite <- (ascii_N_embedding a), Ha. apply ascii_N_embedding.
Qed.

Lemma points_split a : forall s b,
  points s = a ++ b -> exists u v, s = u +:+ v /\ points u = a /\ points v = b.
Proof.
  induction a as [|x a IH]; intros s b H.
  - exists "", s. auto.
  - destruct s as [|c s]; [discriminate|]. simpl in H. injection H as Hx Hs.
    destruct (IH s b Hs) as (u & v & -> & Hu & Hv).
    exists (String c u), v. simpl. rewrite Hu, Hx. auto.
Qed.

Lemma leb_points a b :
  (point a <=? point b)%N = (code a <=? code b)%nat.
Proof.
  unfold point, code, nat_of_ascii. apply eq_true_iff_eq.
  rewrite N.leb_le, Nat.leb_le. lia.
Qed.

Lemma upper_point_byte c : upper_point (N_of_ascii c) = is_upper c.
Proof. unfold upper_point, is_upper, between. fold (point c). rewrite !leb_points. reflexivity. Qed.

Lemma lower_point_byte c : lower_point (N_of_ascii c) = is_lower c.
Proof. unfold lower_point, is_lower, between. fold (point c). rewrite !leb_points. reflexivity. Qed.

Lemma digit_point_byte c : digit_point (N_of_ascii c) = is_digit c.
Proof. unfold digit_point, is_digit, between. fold (point c). rewrite !leb_points. reflexivity. Qed.

Lemma decimal_byte c :
  (N_of_ascii c <? 128)%N = true -> is_decimal (N_of_ascii c) = is_digit c.
Proof. intros H. unfold is_decimal. rewrite H. apply digit_point_byte. Qed.

Lemma every_and (f g : ascii -> bool) s :
  every f s = true -> every g s = true -> every (fun c => f c && g c) s = true.
Proof.
  induction s as [|c s IH]; simpl; [auto|].
  rewrite !andb_true_iff. intros [Hf Hs] [Hg Hs']. auto.
Qed.

Lemma decimal_digits (s : string) :
  every (fun c => (N_of_ascii c <? 128)%N) s = true ->
  forallb is_decimal (points s) = every is_digit s.
Proof.
  intros H. rewrite points_forallb.
  induction s as [|c s IH]; [reflexivity|]. simpl in *.
  apply andb_true_iff in H as [Hc Hs]. rewrite (decimal_byte c Hc), (IH Hs). reflexivity.
Qed.

Lemma in_alphabet_ascii c : in_alphabet c = true -> (N_of_ascii c <? 128)%N = true.
Proof.
  unfold in_alphabet, is_upper, is_lower, is_digit, between, code, nat_of_ascii.
  rewrite !orb_true_iff, !andb_true_iff, !Nat.leb_le, N.ltb_lt.
  intros [[[[[_ H]|[_ H]]|[_ H]]|H]|H].
  - change (N.to_nat (N_of_ascii "Z")) with 90 in H. lia.
  - change (N.to_nat (N_of_ascii "z")) with 122 in H. lia.
  - change (N.to_nat (N_of_ascii "9")) with 57 in H. lia.
  - apply Ascii.eqb_eq in H. subst c. reflexivity.
  - apply Ascii.eqb_eq in H. subst c. reflexivity.
Qed.

(** On ASCII names the accepted shape is the convention's. *)
Lemma accepted_points_conforming (s : string) :
  every (fun c => (N_of_ascii c <? 128)%N) s = true ->
  (accepted_points (points s) <-> conforming s).
Proof.
  intros Hs. split.
  - intros (d & pr & dl & lod & ext & E & [Hd8 Hd] & [Hpr1 Hpr] & [Hdl1 Hdl]
            & [Hl3 Hl] & [He1 He]).
    apply points_split in E as (sd & r1 & -> & <- & E). cbn [app] in E.
    apply points_cons in E as (r2 & -> & E).
    apply points_split in E as (spr & r3 & -> & <- & E). cbn [app] in E.
    apply points_cons in E as (r4 & -> & E).
    apply points_split in E as (sdl & r5 & -> & <- & E). cbn [app] in E.
    apply points_cons in E as (r6 & -> & E). apply points_cons in E as (r7 & -> & E).
    apply points_cons in E as (r8 & -> & E). apply points_cons in E as (r9 & -> & E).
    apply points_split in E as (slod & r10 & -> & <- & E). cbn [app] in E.
    apply points_cons in E as (sext & -> & <-).
    rewrite points_length in Hd8, Hpr1, Hdl1, Hl3, He1.
    rewrite points_forallb in Hpr, Hdl, He.
    rewrite every_app in Hs. apply andb_true_iff in Hs as [Hsd Hs]. simpl in Hs.
    rewrite every_app in Hs. apply andb_true_iff in Hs as [_ Hs]. simpl in Hs.
    rewrite every_app in Hs. apply andb_true_iff in Hs as [_ Hs]. simpl in Hs.
    rewrite every_app in Hs. apply andb_true_iff in Hs as [Hsl _].
    rewrite (decimal_digits sd Hsd) in Hd. rewrite (decimal_digits slod Hsl) in Hl.
    exists sd, spr, sdl, slod, sext. split; [reflexivity|].
    repeat split; auto.
    + rewrite <- Hpr. apply every_ext. intros c.
      rewrite upper_point_byte, digit_point_byte. reflexivity.
    + rewrite <- Hdl. apply every_ext. intros c.
      rewrite upper_point_byte, lower_point_byte, digit_point_byte. reflexivity.
    + rewrite <- He. apply every_ext. intros c.
      rewrite lower_point_byte, digit_point_byte. reflexivity.
  - intros (sd & spr & sdl & slod & sext & -> & [Hd8 Hd] & [Hpr1 Hpr] & [Hdl1 Hdl]
            & [Hl3 Hl] & [He1 He]).
    rewrite every_app in Hs. apply andb_true_iff in Hs as [Hsd Hs]. simpl in Hs.
    rewrite every_app in Hs. apply andb_true_iff in Hs as [_ Hs]. simpl in Hs.
    rewrite every_app in Hs. apply andb_true_iff in Hs as [_ Hs]. simpl in Hs.
    rewrite every_app in Hs. apply andb_true_iff in Hs as [Hsl _].
    exists (points sd), (points spr), (points sdl), (points slod), (points sext).
    split.
    { rewrite !points_app. reflexivity. }
    rewrite !points_length, (decimal_digits sd Hsd), (decimal_digits slod Hsl).
    rewrite !points_forallb.
    repeat split; auto.
    + rewrite <- Hpr. apply every_ext. intros c.
      rewrite upper_point_byte, digit_point_byte. reflexivity.
    + rewrite <- Hdl. apply every_ext. intros c.
      rewrite upper_point_byte, lower_point_byte, digit_point_byte. reflexivity.
    + rewrite <- He. apply every_ext. intros c.
      rewrite lower_point_byte, digit_point_byte. reflexivity.
Qed.

(** ** Further properties of the function *)

(** X1. The names [re.match(SOP_PATTERN, _)] accepts are exactly the names
    whose characters are 8 decimal digits, underscore, one or more of A-Z
    0-9, underscore, one or more of A-Z a-z 0-9, [_LoD], 3 decimal digits, a
    dot and one or more of a-z 0-9, and those names followed by one line
    feed.  A decimal digit is any digit of the interpreter's Unicode
    database, not only 0-9. *)
Theorem accepted_names_exact (s : string) :
  re_match SOP_PATTERN s = true <->
  exists cps t, codepoints s = Some cps /\ accepted_points t /\
                (cps = t \/ cps = t ++ [10%N]).
Proof. apply re_match_SOP_iff. Qed.

(** X2. On a name made of ASCII characters with no line feed the test of
    line 24 is a whole-string test: the name is accepted if and only if it
    conforms to the convention. *)
Theorem match_is_whole_string_on_plain_names (s : string) :
  every (fun c => (N_of_ascii c <? 128)%N && negb (Ascii.eqb c "010")) s = true ->
  (re_match SOP_PATTERN s = true <-> conforming s).
Proof.
  intros H.
  assert (Ha : every (fun c => (N_of_ascii c <? 128)%N) s = true).
  { revert H. apply every_weaken. intros c Hc. apply andb_true_iff in Hc. tauto. }
  assert (Hl : forallb (fun p => negb (p =? 10)%N) (points s) = true).
  { rewrite points_forallb. revert H. apply every_weaken. intros c Hc.
    apply andb_true_iff in Hc as [_ Hc]. apply negb_true_iff in Hc.
    apply negb_true_iff, N.eqb_neq. intros E.
    apply Ascii.eqb_neq in Hc. apply Hc.
    rewrite <- (ascii_N_embedding c), E. reflexivity. }
  rewrite re_match_SOP_iff, (codepoints_ascii s Ha). split.
  - intros (cps & t & [= <-] & Ht & [<- | E]).
    + apply (accepted_points_conforming s Ha), Ht.
    + rewrite E, forallb_app in Hl. apply andb_true_iff in Hl as [_ Hl]. discriminate.
  - intros Hc. exists (points s), (points s).
    split; [reflexivity|]. split; [|auto].
    apply (accepted_points_conforming s Ha), Hc.
Qed.

(** X3. Delivering the same event again after a quarantine that succeeded
    fails: the second run prints the violation line, issues the copy, and
    ends with [NotFound]; it issues no delete and changes no object. *)
Theorem second_delivery_raises_not_found (ev : CloudEvent) (w : world) :
  let b := bucket (data ev) in
  let n := name (data ev) in
  let w1 := snd (validate_naming_convention ev w) in
  excluded n = false ->
  re_match SOP_PATTERN n = false ->
  fst (validate_naming_convention ev w) = Returned tt ->
  validate_naming_convention ev w1 =
    (Raised NotFound,
     observe (Issued (CopyBlob b n b ("quarantine/" +:+ n)))
       (observe (Printed (violation_line n)) w1)).
Proof.
  intros b n w1 Hx Hm. subst w1.
  rewrite (run_violation ev w Hx Hm). subst b n.
  destruct (nameless _) eqn:Hn; [discriminate|].
  destruct (refuses w (CopyBlob _ _ _ _)) as [e|] eqn:Hc; [discriminate|].
  destruct (objects w !! _) as [v|]; [|discriminate].
  destruct (refuses w (DeleteBlob _ _)); [discriminate|].
  intros _. cbn [snd]. rewrite (run_violation ev _ Hx Hm), Hn.
  cbn [refuses objects with_objects observe].
  rewrite Hc, lookup_delete_eq. reflexivity.
Qed.

(** X4. The object a successful quarantine creates is never moved again:
    the event for the new key ["quarantine/" + name] is skipped, and the
    content stays at that key. *)
Theorem quarantined_object_stays (ev : CloudEvent) (w : world) :
  let b := bucket (data ev) in
  let n := name (data ev) in
  let w1 := snd (validate_naming_convention ev w) in
  excluded n = false ->
  re_match SOP_PATTERN n = false ->
  fst (validate_naming_convention ev w) = Returned tt ->
  validate_naming_convention (upload b ("quarantine/" +:+ n)) w1 = (Returned tt, w1) /\
  objects w1 !! (b, "quarantine/" +:+ n) = objects w !! (b, n) /\
  is_Some (objects w !! (b, n)).
Proof.
  intros b n w1 Hx Hm Hr. split.
  - apply run_excluded. unfold excluded. cbn [upload data name].
    rewrite (contains_prefix _ _ (prefix_append "quarantine/" n)). reflexivity.
  - subst w1. revert Hr. rewrite (run_violation ev w Hx Hm). subst b n.
    destruct (nameless _); [discriminate|].
    destruct (refuses w (CopyBlob _ _ _ _)) as [e|]; [discriminate|].
    destruct (objects w !! _) as [v|]; [|discriminate].
    destruct (refuses w (DeleteBlob _ _)); [discriminate|].
    intros _. cbn [snd objects with_objects observe]. split; [|eauto].
    rewrite lookup_delete_ne by (intros E; symmetry in E; revert E; apply quarantine_key_fresh).
    apply lookup_insert_eq.
Qed.

(** X5. Whatever the name, the backend and the outcome, a run leaves every
    object other than (bucket, name) and (bucket, "quarantine/" + name) as it
    was. *)
Theorem other_objects_untouched (ev : CloudEvent) (w : world) (k : string * string) :
  let b := bucket (data ev) in
  let n := name (data ev) in
  k <> (b, n) ->
  k <> (b, "quarantine/" +:+ n) ->
  objects (snd (validate_naming_convention ev w)) !! k = objects w !! k.
Proof. exact (run_frame ev w k). Qed.

(** X6. No run loses the uploaded content: if an object is at (bucket, name)
    before the run, then after it, whatever failed, the same content is
    still at (bucket, name), or the run returned normally and the content is
    at (bucket, "quarantine/" + name). *)
Theorem content_is_never_lost (ev : CloudEvent) (w : world) (v : string) :
  let b := bucket (data ev) in
  let n := name (data ev) in
  let out := validate_naming_convention ev w in
  objects w !! (b, n) = Some v ->
  objects (snd out) !! (b, n) = Some v \/
  (fst out = Returned tt /\
   objects (snd out) !! (b, n) = None /\
   objects (snd out) !! (b, "quarantine/" +:+ n) = Some v).
Proof.
  intros b n out Hv. subst out.
  destruct (excluded n) eqn:Hx; [rewrite (run_excluded ev w Hx); left; exact Hv|].
  destruct (re_match SOP_PATTERN n) eqn:Hm;
    [rewrite (run_compliant ev w Hm); left; exact Hv|].
  rewrite (run_violation ev w Hx Hm). fold b n. rewrite Hv.
  destruct (nameless n); [left; exact Hv|].
  destruct (refuses w (CopyBlob _ _ _ _)); [left; exact Hv|].
  destruct (refuses w (DeleteBlob _ _)); cbn [fst snd objects with_objects observe].
  - left. rewrite lookup_insert_ne by apply quarantine_key_fresh. exact Hv.
  - right. split; [reflexivity|]. split; [apply lookup_delete_eq|].
    rewrite lookup_delete_ne by (intros E; symmetry in E; revert E; apply quarantine_key_fresh).
    apply lookup_insert_eq.
Qed.

(** X8. A move interrupted at the delete is completed by a later delivery of
    the same event: if the copy succeeded and the delete was refused, then a
    second run, with a backend that now serves both requests, returns
    normally, leaves nothing at (bucket, name) and leaves the content at
    (bucket, "quarantine/" + name). *)
Theorem redelivery_completes_the_move (ev : CloudEvent) (w : world) (e : exception)
    (refuses2 : request -> option exception) :
  let b := bucket (data ev) in
  let n := name (data ev) in
  let copy := CopyBlob b n b ("quarantine/" +:+ n) in
  let w1 := snd (validate_naming_convention ev w) in
  let out2 := validate_naming_convention ev (World (objects w1) refuses2 (trace w1)) in
  excluded n = false ->
  re_match SOP_PATTERN n = false ->
  response w copy = None ->
  refuses w (DeleteBlob b n) = Some e ->
  refuses2 copy = None ->
  refuses2 (DeleteBlob b n) = None ->
  fst out2 = Returned tt /\
  objects (snd out2) !! (b, n) = None /\
  objects (snd out2) !! (b, "quarantine/" +:+ n) = objects w !! (b, n) /\
  is_Some (objects w !! (b, n)).
Proof.
  intros b n copy w1 out2 Hx Hm Hc Hd Hc2 Hd2. subst out2 w1.
  rewrite (run_violation ev _ Hx Hm). rewrite (run_violation ev w Hx Hm).
  subst copy. rewrite response_copy in Hc. fold b n. fold b n in Hc.
  destruct (nameless n); [discriminate|].
  destruct (refuses w (CopyBlob _ _ _ _)); [discriminate|].
  destruct (objects w !! (b, n)) as [v|] eqn:Ho; [|discriminate].
  rewrite Hd. cbn [snd fst objects refuses trace with_objects observe].
  rewrite Hc2, Hd2.
  rewrite lookup_insert_ne by apply quarantine_key_fresh. rewrite Ho.
  cbn [snd fst objects refuses trace with_objects observe].
  split; [reflexivity|]. split; [apply lookup_delete_eq|]. split; [|eauto].
  rewrite lookup_delete_ne by (intros E; symmetry in E; revert E; apply quarantine_key_fresh).
  apply lookup_insert_eq.
Qed.

(** X11. Quarantined copies of other files are never overwritten: a run on
    (bucket, name) leaves the object at (bucket, "quarantine/" + other)
    as it was, for every other name. *)
Theorem other_quarantined_copies_kept (ev : CloudEvent) (w : world) (other : string) :
  let b := bucket (data ev) in
  let n := name (data ev) in
  other <> n ->
  objects (snd (validate_naming_convention ev w)) !! (b, "quarantine/" +:+ other) =
    objects w !! (b, "quarantine/" +:+ other).
Proof.
  intros b n Hne. subst b n.
  destruct (excluded (name (data ev))) eqn:Hx;
    [rewrite (run_excluded ev w Hx); reflexivity|].
  apply (run_frame ev w).
  - intros E. injection E as E.
    unfold excluded in Hx. apply orb_false_iff in Hx as [Hq _].
    pose proof (contains_prefix _ _ (prefix_append "quarantine/" other)) as Hp.
    rewrite <- E in Hq.
    change (contains "quarantine/" ("quarantine/" +:+ other) = false) in Hq.
    congruence.
  - intros E. injection E as E. apply Hne. exact E.
Qed.

(** X9. The function is silent exactly on the names it skips, which are the
    names of the form [u + "quarantine/" + v] and the names that begin with
    a dot: on such a name a run observes nothing; on every other name it
    prints exactly one line, the compliance line or the violation line. *)
Theorem silent_exactly_on_skipped_names (ev : CloudEvent) (w : world) :
  let n := name (data ev) in
  let skipped :=
    (exists u v, n = u +:+ "quarantine/" +:+ v) \/ (exists r, n = String "." r) in
  exists t,
    trace (snd (validate_naming_convention ev w)) = trace w ++ t /\
    (skipped -> t = []) /\
    (~ skipped ->
       printed t = [compliant_line n] \/ printed t = [violation_line n]).
Proof.
  intros n skipped.
  assert (Hsk : skipped <-> excluded n = true).
  { subst skipped. unfold excluded.
    rewrite <- contains_split, <- startswith_dot, orb_true_iff. reflexivity. }
  destruct (excluded n) eqn:Hx.
  - exists []. rewrite (run_excluded ev w Hx), app_nil_r.
    split; [reflexivity|]. split; [reflexivity|].
    intros Hn. exfalso. apply Hn, Hsk. reflexivity.
  - assert (Hns : skipped -> False) by (intros H; apply Hsk in H; discriminate).
    destruct (re_match SOP_PATTERN n) eqn:Hm.
    + eexists. rewrite (run_compliant ev w Hm). split; [reflexivity|].
      split; [intros H; destruct (Hns H)|]. intros _. left. reflexivity.
    + eexists. split; [apply (run_violation_trace ev w Hx Hm)|].
      split; [intros H; destruct (Hns H)|]. intros _. right.
      destruct (serves w _); reflexivity.
Qed.

End Interpreter.

(** ** The properties at work *)

Example unicode_digits_accepted :
  re_match sample_digits SOP_PATTERN "٢٠٢٤٠١١٥_PRJ1_Scan_LoD２００.las" = true.
Proof. reflexivity. Qed.

Lemma violation_copies_then_deletes_witness :
  let n := "scan_final.las" in
  let out := validate_naming_convention sample_digits (upload "scans" n)
               (holding "scans" n "LASF" quiet) in
  contains "quarantine/" n = false /\
  startswith n "." = false /\
  startswith (final_segment n) "." = false /\
  re_match sample_digits SOP_PATTERN n = false /\
  trace (snd out) =
    [ Printed (violation_line n);
      Issued (CopyBlob "scans" n "scans" "quarantine/scan_final.las");
      Issued (DeleteBlob "scans" n) ] /\
  contains n (violation_line n) = true /\
  (forall e, response (holding "scans" n "LASF" quiet)
               (CopyBlob "scans" n "scans" "quarantine/scan_final.las") = Some e ->
             fst out = Raised e).
Proof.
  do 4 (split; [reflexivity|]).
  apply (violation_copies_then_deletes sample_digits (upload "scans" "scan_final.las")
           (holding "scans" "scan_final.las" "LASF" quiet)); reflexivity.
Defined.

(** C1 as stated fails: with no object at the key, the name neither skipped
    nor accepted, the copy is called and ends with [NotFound], and no delete
    follows it. *)
Lemma copy_of_missing_object_has_no_delete :
  let n := "scan_final.las" in
  let out := validate_naming_convention sample_digits (upload "scans" n)
               (World ∅ quiet []) in
  excluded n = false /\
  startswith (final_segment n) "." = false /\
  re_match sample_digits SOP_PATTERN n = false /\
  fst out = Raised NotFound /\
  issued (trace (snd out)) = [CopyBlob "scans" n "scans" "quarantine/scan_final.las"].
Proof. repeat split. Qed.

(** A key in a folder whose name starts with a dot is skipped by line 20,
    although its final segment starts with no dot and it fails the pattern. *)
Example key_in_dot_folder_is_skipped :
  let n := ".config/scan.las" in
  startswith (final_segment n) "." = false /\
  re_match sample_digits SOP_PATTERN n = false /\
  validate_naming_convention sample_digits (upload "scans" n)
    (holding "scans" n "LASF" quiet) = (Returned tt, holding "scans" n "LASF" quiet).
Proof. repeat split. Qed.

Lemma compliant_name_mutates_nothing_witness :
  re_match sample_digits SOP_PATTERN "20240115_PRJ1_Scan_LoD200.las" = true /\
  let ev := upload "scans" "20240115_PRJ1_Scan_LoD200.las" in
  let w := holding "scans" "20240115_PRJ1_Scan_LoD200.las" "LASF" quiet in
  excluded (name (data ev)) = false /\
  fst (validate_naming_convention sample_digits ev w) = Returned tt /\
  objects (snd (validate_naming_convention sample_digits ev w)) = objects w /\
  trace (snd (validate_naming_convention sample_digits ev w)) =
    trace w ++ [Printed (compliant_line (name (data ev)))].
Proof.
  split; [reflexivity|].
  apply (compliant_name_mutates_nothing sample_digits
           (upload "scans" "20240115_PRJ1_Scan_LoD200.las")
           (holding "scans" "20240115_PRJ1_Scan_LoD200.las" "LASF" quiet)).
  reflexivity.
Defined.

Lemma successful_quarantine_moves_object_witness :
  let ev := upload "scans" "scan_final.las" in
  let w := holding "scans" "scan_final.las" "LASF" quiet in
  let out := validate_naming_convention sample_digits ev w in
  objects (snd out) !! ("scans", "scan_final.las") = None /\
  exists v, objects w !! ("scans", "scan_final.las") = Some v /\
            objects (snd out) !! ("scans", "quarantine/scan_final.las") = Some v.
Proof.
  apply (successful_quarantine_moves_object sample_digits (upload "scans" "scan_final.las")
           (holding "scans" "scan_final.las" "LASF" quiet)); reflexivity.
Defined.

Lemma storage_failure_propagates_witness :
  let ev := upload "scans" "scan_final.las" in
  let w := holding "scans" "scan_final.las" "LASF" (refusing_delete Forbidden) in
  let out := validate_naming_convention sample_digits ev w in
  fst out = Raised Forbidden /\
  issued (trace (snd out)) =
    issued (trace w) ++
      [ CopyBlob "scans" "scan_final.las" "scans" "quarantine/scan_final.las";
        DeleteBlob "scans" "scan_final.las" ] /\
  exists v, objects w !! ("scans", "scan_final.las") = Some v /\
            objects (snd out) = <[("scans", "quarantine/scan_final.las") := v]> (objects w) /\
            objects (snd out) !! ("scans", "scan_final.las") = Some v /\
            objects (snd out) !! ("scans", "quarantine/scan_final.las") = Some v.
Proof.
  apply (storage_failure_propagates sample_digits (upload "scans" "scan_final.las")
           (holding "scans" "scan_final.las" "LASF" (refusing_delete Forbidden))
           Forbidden); reflexivity.
Defined.

(** C7 as stated fails when the copy is refused: the object stays where it
    was, nothing is at the quarantine key, and no delete is called. *)
Lemma refused_copy_leaves_lowercase_name_in_place :
  let n := "20240115_prj1_scan_LoD200.las" in
  let q := "quarantine/20240115_prj1_scan_LoD200.las" in
  let w := holding "scans" n "LASF" (refusing_copy Forbidden) in
  let out := validate_naming_convention sample_digits (upload "scans" n) w in
  fst out = Raised Forbidden /\
  issued (trace (snd out)) = [CopyBlob "scans" n "scans" q] /\
  objects (snd out) !! ("scans", n) = Some "LASF" /\
  objects (snd out) !! ("scans", q) = None.
Proof. repeat split. Qed.

Lemma lowercase_project_code_is_quarantined_witness :
  let n := "20240115_prj1_scan_LoD200.las" in
  let q := "quarantine/20240115_prj1_scan_LoD200.las" in
  let w := holding "scans" n "LASF" quiet in
  let out := validate_naming_convention sample_digits (upload "scans" n) w in
  response w (CopyBlob "scans" n "scans" q) = None /\
  refuses w (DeleteBlob "scans" n) = None /\
  fst out = Returned tt /\
  objects (snd out) !! ("scans", n) = None /\
  objects (snd out) !! ("scans", q) = objects w !! ("scans", n).
Proof.
  split; [reflexivity|]. split; [reflexivity|].
  apply (lowercase_project_code_is_quarantined sample_digits "scans"
           (holding "scans" "20240115_prj1_scan_LoD200.las" "LASF" quiet));
    reflexivity.
Defined.

(** C8 as stated fails when the copy is refused: the key with a slash stays
    where it was and nothing appears under the quarantine prefix. *)
Lemma refused_copy_leaves_key_with_slash_in_place :
  let n := "site/scan.las" in
  let w := holding "scans" n "LASF" (refusing_copy Forbidden) in
  let out := validate_naming_convention sample_digits (upload "scans" n) w in
  contains "/" n = true /\
  excluded n = false /\
  fst out = Raised Forbidden /\
  issued (trace (snd out)) = [CopyBlob "scans" n "scans" "quarantine/site/scan.las"] /\
  objects (snd out) !! ("scans", n) = Some "LASF" /\
  objects (snd out) !! ("scans", "quarantine/site/scan.las") = None.
Proof. repeat split. Qed.

Lemma key_with_slash_is_quarantined_witness :
  let n := "site/20240115_PRJ1_Scan_LoD200.las" in
  let q := "quarantine/site/20240115_PRJ1_Scan_LoD200.las" in
  let w := holding "scans" n "LASF" quiet in
  let out := validate_naming_convention sample_digits (upload "scans" n) w in
  contains "/" n = true /\
  excluded n = false /\
  re_match sample_digits SOP_PATTERN n = false /\
  trace (snd out) =
    [ Printed (violation_line n);
      Issued (CopyBlob "scans" n "scans" q);
      Issued (DeleteBlob "scans" n) ] /\
  fst out = Returned tt /\
  objects (snd out) !! ("scans", n) = None /\
  objects (snd out) !! ("scans", q) = Some "LASF".
Proof.
  split; [reflexivity|]. split; [reflexivity|].
  pose proof (key_with_slash_is_quarantined sample_digits
                (upload "scans" "site/20240115_PRJ1_Scan_LoD200.las")
                (holding "scans" "site/20240115_PRJ1_Scan_LoD200.las" "LASF" quiet)
                eq_refl eq_refl) as ([_ Hm] & Ht & _ & _ & Hok & _).
  split; [exact Hm|]. split; [exact Ht|].
  exact (Hok eq_refl eq_refl).
Defined.

(** C9 as stated fails: for the empty name no delete of the empty key is
    called, even with an object stored under the empty key; the run ends
    with the client's [ValueError] at the copy and changes nothing. *)
Lemma empty_name_never_reaches_delete :
  let w := holding "scans" "" "LASF" quiet in
  let out := validate_naming_convention sample_digits (upload "scans" "") w in
  fst out = Raised ValueError /\
  issued (trace (snd out)) = [CopyBlob "scans" "" "scans" "quarantine/"] /\
  objects (snd out) = objects w.
Proof. repeat split. Qed.

Lemma branch_depends_on_name_only_witness :
  let ev1 := upload "scans" "scan_final.las" in
  let ev2 := upload "archive" "scan_final.las" in
  let w1 := holding "scans" "scan_final.las" "LASF" quiet in
  let w2 := holding "archive" "scan_final.las" "LASF" (refusing_delete Forbidden) in
  name (data ev1) = name (data ev2) /\
  validate_naming_convention sample_digits ev1 w1
    = takes Quarantine "scans" "scan_final.las" w1 /\
  validate_naming_convention sample_digits ev2 w2
    = takes Quarantine "archive" "scan_final.las" w2 /\
  exists t1 t2,
    trace (snd (validate_naming_convention sample_digits ev1 w1)) = trace w1 ++ t1 /\
    trace (snd (validate_naming_convention sample_digits ev2 w2)) = trace w2 ++ t2 /\
    printed t1 = [violation_line "scan_final.las"] /\
    printed t2 = [violation_line "scan_final.las"] /\
    Forall (addresses "scans") (issued t1) /\
    Forall (addresses "archive") (issued t2).
Proof.
  split; [reflexivity|].
  apply (branch_depends_on_name_only sample_digits (upload "scans" "scan_final.las")
           (upload "archive" "scan_final.las")
           (holding "scans" "scan_final.las" "LASF" quiet)
           (holding "archive" "scan_final.las" "LASF" (refusing_delete Forbidden))
           eq_refl).
Defined.

Lemma match_is_whole_string_on_plain_names_witness :
  let s := "20240115_PRJ1_Scan_LoD200.las" in
  every (fun c => (N_of_ascii c <? 128)%N && negb (Ascii.eqb c "010")) s = true /\
  (re_match sample_digits SOP_PATTERN s = true <-> conforming s).
Proof.
  split; [reflexivity|].
  apply (match_is_whole_string_on_plain_names sample_digits
           "20240115_PRJ1_Scan_LoD200.las").
  reflexivity.
Defined.

Lemma second_delivery_raises_not_found_witness :
  let ev := upload "scans" "scan_final.las" in
  let w := holding "scans" "scan_final.las" "LASF" quiet in
  let w1 := snd (validate_naming_convention sample_digits ev w) in
  fst (validate_naming_convention sample_digits ev w) = Returned tt /\
  validate_naming_convention sample_digits ev w1 =
    (Raised NotFound,
     observe (Issued (CopyBlob "scans" "scan_final.las" "scans" "quarantine/scan_final.las"))
       (observe (Printed (violation_line "scan_final.las")) w1)).
Proof.
  split; [reflexivity|].
  apply (second_delivery_raises_not_found sample_digits (upload "scans" "scan_final.las")
           (holding "scans" "scan_final.las" "LASF" quiet)); reflexivity.
Defined.

Lemma quarantined_object_stays_witness :
  let ev := upload "scans" "scan_final.las" in
  let w := holding "scans" "scan_final.las" "LASF" quiet in
  let w1 := snd (validate_naming_convention sample_digits ev w) in
  validate_naming_convention sample_digits (upload "scans" "quarantine/scan_final.las") w1
    = (Returned tt, w1) /\
  objects w1 !! ("scans", "quarantine/scan_final.las") = objects w !! ("scans", "scan_final.las") /\
  is_Some (objects w !! ("scans", "scan_final.las")).
Proof.
  apply (quarantined_object_stays sample_digits (upload "scans" "scan_final.las")
           (holding "scans" "scan_final.las" "LASF" quiet)); reflexivity.
Defined.

Lemma other_objects_untouched_witness :
  let ev := upload "scans" "scan_final.las" in
  let w := World {[ ("scans", "scan_final.las") := "LASF";
                    ("scans", "20240115_PRJ1_Scan_LoD200.las") := "good" ]} quiet [] in
  let k := ("scans", "20240115_PRJ1_Scan_LoD200.las") in
  k <> ("scans", "scan_final.las") /\
  k <> ("scans", "quarantine/scan_final.las") /\
  objects (snd (validate_naming_convention sample_digits ev w)) !! k = objects w !! k.
Proof.
  split; [discriminate|]. split; [discriminate|].
  apply (other_objects_untouched sample_digits (upload "scans" "scan_final.las")
           (World {[ ("scans", "scan_final.las") := "LASF";
                     ("scans", "20240115_PRJ1_Scan_LoD200.las") := "good" ]} quiet [])
           ("scans", "20240115_PRJ1_Scan_LoD200.las")); discriminate.
Defined.

Lemma content_is_never_lost_witness :
  let ev := upload "scans" "scan_final.las" in
  let w := holding "scans" "scan_final.las" "LASF" (refusing_delete Forbidden) in
  let out := validate_naming_convention sample_digits ev w in
  objects w !! ("scans", "scan_final.las") = Some "LASF" /\
  (objects (snd out) !! ("scans", "scan_final.las") = Some "LASF" \/
   (fst out = Returned tt /\
    objects (snd out) !! ("scans", "scan_final.las") = None /\
    objects (snd out) !! ("scans", "quarantine/scan_final.las") = Some "LASF")).
Proof.
  split; [reflexivity|].
  apply (content_is_never_lost sample_digits (upload "scans" "scan_final.las")
           (holding "scans" "scan_final.las" "LASF" (refusing_delete Forbidden))
           "LASF"); reflexivity.
Defined.

Lemma redelivery_completes_the_move_witness :
  let ev := upload "scans" "scan_final.las" in
  let w := holding "scans" "scan_final.las" "LASF" (refusing_delete Forbidden) in
  let w1 := snd (validate_naming_convention sample_digits ev w) in
  let out2 := validate_naming_convention sample_digits ev
                (World (objects w1) quiet (trace w1)) in
  fst (validate_naming_convention sample_digits ev w) = Raised Forbidden /\
  fst out2 = Returned tt /\
  objects (snd out2) !! ("scans", "scan_final.las") = None /\
  objects (snd out2) !! ("scans", "quarantine/scan_final.las")
    = objects w !! ("scans", "scan_final.las") /\
  is_Some (objects w !! ("scans", "scan_final.las")).
Proof.
  split; [reflexivity|].
  apply (redelivery_completes_the_move sample_digits (upload "scans" "scan_final.las")
           (holding "scans" "scan_final.las" "LASF" (refusing_delete Forbidden))
           Forbidden quiet); reflexivity.
Defined.

Lemma other_quarantined_copies_kept_witness :
  let ev := upload "scans" "scan_final.las" in
  let w := World {[ ("scans", "scan_final.las") := "LASF";
                    ("scans", "quarantine/old.las") := "kept" ]} quiet [] in
  "old.las" <> "scan_final.las" /\
  objects (snd (validate_naming_convention sample_digits ev w))
    !! ("scans", "quarantine/old.las") =
    objects w !! ("scans", "quarantine/old.las").
Proof.
  split; [discriminate|].
  apply (other_quarantined_copies_kept sample_digits (upload "scans" "scan_final.las")
           (World {[ ("scans", "scan_final.las") := "LASF";
                     ("scans", "quarantine/old.las") := "kept" ]} quiet [])
           "old.las"); discriminate.
Defined.
